(** * PPT-GENERATOR: the document-to-presentation pipeline of [pptgenerator.py]

    A shallow embedding of the core functions of [src/pptgenerator.py]
    ([configure_gemini], [extract_text_from_pdf], [generate_slide_content],
    [create_presentation]) together with the properties of the pipeline.

    Python values are modelled as follows.
    - [str] is a list of Unicode code points, so that [len] counts code points
      as Python does.
    - Exceptions are values of [exn]; a computation that may raise returns an
      [outcome].
    - Calls into Streamlit, the PDF readers, the generation service and
      python-pptx are effects: they are recorded in a log of [event]s, and
      what the outside world answers is drawn from an abstract world. *)

From Stdlib Require Import List NArith Arith Bool Lia.
From Stdlib Require String Ascii.
Import ListNotations String.StringSyntax.
Delimit Scope string_scope with string.

Set Implicit Arguments.

(* ================================================================== *)
(** * Python strings *)
(* ================================================================== *)

Module PyStr.

(** A Python [str]: the sequence of its code points. *)
Definition str := list N.

(** An ASCII literal of the source as a [str]. *)
Fixpoint lit (s : String.string) : str :=
  match s with
  | String.EmptyString => []
  | String.String a s' => Ascii.N_of_ascii a :: lit s'
  end.
Arguments lit s%_string.

Definition LF : N := 10.
Definition BULLET : N := 8226.   (* U+2022, the marker '•' *)

(** [strip_prefix p s]: [Some r] when [s = p ++ r]. *)
Fixpoint strip_prefix (p s : str) : option str :=
  match p, s with
  | [], _ => Some s
  | _ :: _, [] => None
  | a :: p', b :: s' => if N.eqb a b then strip_prefix p' s' else None
  end.

(** [s.startswith(p)] *)
Definition startswith (p s : str) : bool :=
  match strip_prefix p s with Some _ => true | None => false end.

(** [s.partition(sep)] at the first (leftmost) occurrence of [sep]:
    the text before it and the text after it, or [None] when [sep] does not
    occur. *)
Fixpoint partition (sep s : str) : option (str * str) :=
  match strip_prefix sep s with
  | Some rest => Some ([], rest)
  | None =>
      match s with
      | [] => None
      | c :: s' =>
          match partition sep s' with
          | Some (a, rest) => Some (c :: a, rest)
          | None => None
          end
      end
  end.

(** [sub in s] *)
Definition contains (sub s : str) : bool :=
  match partition sub s with Some _ => true | None => false end.

(** [s.split(sep)] for a non-empty [sep] (every separator of the source is a
    non-empty literal; Python raises ValueError on an empty one).  The
    recursion is on a counter bounded by the length of the text: each cut
    removes at least one character. *)
Fixpoint split_upto (n : nat) (sep s : str) : list str :=
  match n with
  | O => [s]
  | S n' =>
      match partition sep s with
      | None => [s]
      | Some (a, rest) => a :: split_upto n' sep rest
      end
  end.

Definition split (sep s : str) : list str := split_upto (length s) sep s.

(** [sep.join(parts)] *)
Fixpoint join (sep : str) (parts : list str) : str :=
  match parts with
  | [] => []
  | [p] => p
  | p :: ps => p ++ sep ++ join sep ps
  end.

(** [s.replace(old, new)] for a non-empty [old]. *)
Definition replace (old new s : str) : str := join new (split old s).

(** [c.isspace()], as used by [str.strip()] without argument. *)
Definition is_space (c : N) : bool :=
  ((9 <=? c) && (c <=? 13) || (28 <=? c) && (c <=? 32)
   || (c =? 133) || (c =? 160) || (c =? 5760)
   || (8192 <=? c) && (c <=? 8202)
   || (c =? 8232) || (c =? 8233) || (c =? 8239) || (c =? 8287)
   || (c =? 12288))%N.

Fixpoint lstrip_by (f : N -> bool) (s : str) : str :=
  match s with
  | [] => []
  | c :: s' => if f c then lstrip_by f s' else s
  end.

Definition rstrip_by (f : N -> bool) (s : str) : str :=
  rev (lstrip_by f (rev s)).

Definition strip_by (f : N -> bool) (s : str) : str :=
  rstrip_by f (lstrip_by f s).

(** [s.strip()] *)
Definition strip (s : str) : str := strip_by is_space s.

Definition mem (chars : str) (c : N) : bool := existsb (N.eqb c) chars.

(** [s.strip(chars)] *)
Definition strip_chars (chars s : str) : str := strip_by (mem chars) s.

(** [str(n)] for a non-negative integer. *)
Definition digit (d : nat) : N := (48 + N.of_nat d)%N.

Fixpoint str_of_nat_upto (fuel n : nat) (acc : str) : str :=
  match fuel with
  | O => acc
  | S f =>
      let acc' := digit (n mod 10) :: acc in
      if n / 10 =? 0 then acc' else str_of_nat_upto f (n / 10) acc'
  end.

Definition str_of_nat (n : nat) : str := str_of_nat_upto (S n) n [].

End PyStr.
Import PyStr.


(** [len(s)] and the slice [s[:n]]. *)
Definition len {A} (l : list A) : N := N.of_nat (length l).
Definition slice_to {A} (n : N) (l : list A) : list A := firstn (N.to_nat n) l.

(** The f-string and literal pieces of the source are written with these. *)
Definition QUOTE : str := [34%N].
Definition NL : str := [LF].
Definition lines (ls : list str) : str := join NL ls.

(* ================================================================== *)
(** * Exceptions, events and the effect monad *)
(* ================================================================== *)

(** Exceptions derived from [Exception]; [exn_str] is [str(e)]. *)
Inductive exn :=
| NameError (msg : str)
| IndexError (msg : str)
| ExternalError (msg : str).   (* raised by a library or by the service *)

Definition exn_str (e : exn) : str :=
  match e with NameError m | IndexError m | ExternalError m => m end.

(** The result of running a piece of the script: a value, an exception, or
    the end of the script run requested by [st.stop()] (which [except
    Exception] does not catch). *)
Inductive outcome (A : Type) :=
| Ok (a : A)
| Raise (e : exn)
| Halt.
Arguments Ok {A} a.
Arguments Raise {A} e.
Arguments Halt {A}.

(** The presentation object built by python-pptx, as far as the script
    writes to it.  Sizes are in thousandths of an inch. *)
Record paragraph_format := {
  font_size_pt : N;
  font_rgb : N * N * N;
  align_left : bool
}.

Record slide := {
  sl_layout : nat;                         (* index into [prs.slide_layouts] *)
  sl_title : str;                          (* [shapes.title.text] *)
  sl_body : str;                           (* [placeholders[1].text] *)
  sl_format : option paragraph_format      (* set on every paragraph of the body *)
}.

Record presentation := {
  slide_width : N;
  slide_height : N;
  slides : list slide
}.

Inductive provider := Pdfplumber | PyPDF2.

(** What the script does to the outside, in the order it does it. *)
Inductive event :=
| StWarning (msg : str)                     (* [st.warning(msg)] *)
| StError (msg : str)                       (* [st.error(msg)] *)
| StStop                                    (* [st.stop()] *)
| Seek0                                     (* [pdf_file.seek(0)] *)
| Invoke (p : provider)                     (* [pdfplumber.open] / [PdfReader] *)
| GenerateContent (prompt : str)            (* [model.generate_content(prompt)] *)
| AddSlide (layout : nat)                   (* [prs.slides.add_slide(layout)] *)
| TempFile (path : str)                     (* [NamedTemporaryFile(delete=False)] *)
| Save (path : str) (prs : presentation).   (* [prs.save(path)] *)

(** Library calls that may raise. *)
Inductive lib_op :=
| GenaiConfigure | GenaiGenerativeModel
| PptxPresentation | PptxSetSize | PptxSlideLayout (i : nat) | PptxAddSlide
| PptxShapesTitle | PptxPlaceholder (i : nat) | PptxSetText | PptxParagraphs
| PptxSetFormat | PptxSave.

Section Effects.

(** The outside world: an abstract state and what it answers. *)
Variable W : Type.

Record env := {
  (** [model.generate_content(prompt).text]: the text, or the exception. *)
  service : str -> W -> (str + exn) * W;
  (** whether a library call raises *)
  lib_raises : lib_op -> W -> option exn * W;
  (** [datetime.now().strftime('%d %b %Y %H:%M')] *)
  strftime_now : W -> str * W;
  (** [tempfile.NamedTemporaryFile(delete=False, suffix='.pptx')]: the name
      of the file created, or the exception. *)
  named_temporary_file : W -> (str + exn) * W
}.

Variable E : env.

Record state := { world : W; log : list event }.

Definition M (A : Type) : Type := state -> outcome A * state.

Definition ret {A} (a : A) : M A := fun s => (Ok a, s).

Definition bind {A B} (m : M A) (k : A -> M B) : M B :=
  fun s =>
    match m s with
    | (Ok a, s') => k a s'
    | (Raise e, s') => (Raise e, s')
    | (Halt, s') => (Halt, s')
    end.

Definition raise {A} (e : exn) : M A := fun s => (Raise e, s).

(** [try: m  except Exception as e: h e] *)
Definition try_except {A} (m : M A) (h : exn -> M A) : M A :=
  fun s =>
    match m s with
    | (Raise e, s') => h e s'
    | r => r
    end.

Definition emit (ev : event) : M unit :=
  fun s => (Ok tt, {| world := world s; log := log s ++ [ev] |}).

Definition halt {A} : M A := fun s => (Halt, s).

(** A pure computation that may raise, run inside the script. *)
Definition lift {A} (r : outcome A) : M A := fun s => (r, s).

Definition ask {A} (f : W -> A * W) : M A :=
  fun s => let (a, w) := f (world s) in (Ok a, {| world := w; log := log s |}).

Definition of_sum {A} (r : A + exn) : M A :=
  match r with inl a => ret a | inr e => raise e end.

(** A library call: it raises, or it returns. *)
Definition lib (op : lib_op) : M unit :=
  bind (ask (lib_raises E op))
       (fun r => match r with Some e => raise e | None => ret tt end).

End Effects.

Arguments ret {W A} a.
Arguments raise {W A} e.
Arguments halt {W A}.
Arguments lift {W A} r.
Arguments emit {W} ev.

Declare Scope py_scope.
Delimit Scope py_scope with py.
Notation "x <- m ;; k" := (bind m (fun x => k))
  (at level 61, m at next level, right associativity) : py_scope.
Notation "m ;; k" := (bind m (fun _ => k))
  (at level 61, right associativity) : py_scope.
Open Scope py_scope.

(* ================================================================== *)
(** * The script *)
(* ================================================================== *)

(** ** Configuration constants *)

Definition MODEL_NAME : str := lit "gemini-1.5-pro".
Definition MAX_PDF_SIZE_MB : N := 50.
Definition MAX_SLIDES : N := 10.
Definition PROCESSING_CHUNK_SIZE : N := 15000.
Definition MIN_CONTENT_LENGTH : N := 100.

(** ** Name resolution

    A global name of the script resolves in the module's globals, then in
    the builtins; otherwise loading it raises NameError.  Every global name
    the functions below use is bound at module level, except the one read by
    [configure_gemini], whose loads are therefore modelled. *)

Inductive pyval :=
| PyStr (s : str)
| PyInt (n : N)
| PyObject (qualname : str).   (* a module, class or function *)

(** The names bound by the module-level statements of the script, in the
    order of their binding. *)
Definition module_globals : list (str * pyval) :=
  [ (lit "os", PyObject (lit "os"));
    (lit "load_dotenv", PyObject (lit "dotenv.load_dotenv"));
    (lit "tempfile", PyObject (lit "tempfile"));
    (lit "st", PyObject (lit "streamlit"));
    (lit "PdfReader", PyObject (lit "PyPDF2.PdfReader"));
    (lit "pdfplumber", PyObject (lit "pdfplumber"));
    (lit "genai", PyObject (lit "google.generativeai"));
    (lit "Presentation", PyObject (lit "pptx.Presentation"));
    (lit "Inches", PyObject (lit "pptx.util.Inches"));
    (lit "Pt", PyObject (lit "pptx.util.Pt"));
    (lit "RGBColor", PyObject (lit "pptx.dml.color.RGBColor"));
    (lit "PP_ALIGN", PyObject (lit "pptx.enum.text.PP_ALIGN"));
    (lit "datetime", PyObject (lit "datetime.datetime"));
    (lit "Optional", PyObject (lit "typing.Optional"));
    (lit "Tuple", PyObject (lit "typing.Tuple"));
    (lit "MODEL_NAME", PyStr MODEL_NAME);
    (lit "MAX_PDF_SIZE_MB", PyInt MAX_PDF_SIZE_MB);
    (lit "MAX_SLIDES", PyInt MAX_SLIDES);
    (lit "PROCESSING_CHUNK_SIZE", PyInt PROCESSING_CHUNK_SIZE);
    (lit "MIN_CONTENT_LENGTH", PyInt MIN_CONTENT_LENGTH);
    (lit "configure_gemini", PyObject (lit "configure_gemini"));
    (lit "extract_text_from_pdf", PyObject (lit "extract_text_from_pdf"));
    (lit "generate_slide_structure", PyObject (lit "generate_slide_structure"));
    (lit "generate_slide_content", PyObject (lit "generate_slide_content"));
    (lit "create_presentation", PyObject (lit "create_presentation"));
    (lit "main", PyObject (lit "main")) ].

(** The names of Python's [builtins] module. *)
Definition builtin_names : list str :=
  map lit
  [ "ArithmeticError"; "AssertionError"; "AttributeError"; "BaseException";
    "BaseExceptionGroup"; "BlockingIOError"; "BrokenPipeError"; "BufferError";
    "BytesWarning"; "ChildProcessError"; "ConnectionAbortedError";
    "ConnectionError"; "ConnectionRefusedError"; "ConnectionResetError";
    "DeprecationWarning"; "EOFError"; "Ellipsis"; "EncodingWarning";
    "EnvironmentError"; "Exception"; "ExceptionGroup"; "False";
    "FileExistsError"; "FileNotFoundError"; "FloatingPointError";
    "FutureWarning"; "GeneratorExit"; "IOError"; "ImportError";
    "ImportWarning"; "IndentationError"; "IndexError"; "InterruptedError";
    "IsADirectoryError"; "KeyError"; "KeyboardInterrupt"; "LookupError";
    "MemoryError"; "ModuleNotFoundError"; "NameError"; "None";
    "NotADirectoryError"; "NotImplemented"; "NotImplementedError"; "OSError";
    "OverflowError"; "PendingDeprecationWarning"; "PermissionError";
    "ProcessLookupError"; "RecursionError"; "ReferenceError";
    "ResourceWarning"; "RuntimeError"; "RuntimeWarning";
    "StopAsyncIteration"; "StopIteration"; "SyntaxError"; "SyntaxWarning";
    "SystemError"; "SystemExit"; "TabError"; "TimeoutError"; "True";
    "TypeError"; "UnboundLocalError"; "UnicodeDecodeError";
    "UnicodeEncodeError"; "UnicodeError"; "UnicodeTranslateError";
    "UnicodeWarning"; "UserWarning"; "ValueError"; "Warning";
    "ZeroDivisionError"; "__build_class__"; "__debug__"; "__doc__";
    "__import__"; "__loader__"; "__name__"; "__package__"; "__spec__";
    "abs"; "aiter"; "all"; "anext"; "any"; "ascii"; "bin"; "bool";
    "breakpoint"; "bytearray"; "bytes"; "callable"; "chr"; "classmethod";
    "compile"; "complex"; "copyright"; "credits"; "delattr"; "dict"; "dir";
    "divmod"; "enumerate"; "eval"; "exec"; "exit"; "filter"; "float";
    "format"; "frozenset"; "getattr"; "globals"; "hasattr"; "hash"; "help";
    "hex"; "id"; "input"; "int"; "isinstance"; "issubclass"; "iter"; "len";
    "license"; "list"; "locals"; "map"; "max"; "memoryview"; "min"; "next";
    "object"; "oct"; "open"; "ord"; "pow"; "print"; "property"; "quit";
    "range"; "repr"; "reversed"; "round"; "set"; "setattr"; "slice";
    "sorted"; "staticmethod"; "str"; "sum"; "super"; "tuple"; "type";
    "vars"; "zip" ]%string.

Definition str_eqb (a b : str) : bool :=
  if list_eq_dec N.eq_dec a b then true else false.

Fixpoint assoc (k : str) (l : list (str * pyval)) : option pyval :=
  match l with
  | [] => None
  | (k', v) :: l' => if str_eqb k k' then Some v else assoc k l'
  end.

Definition load_global (name : str) : outcome pyval :=
  match assoc name module_globals with
  | Some v => Ok v
  | None =>
      if existsb (str_eqb name) builtin_names
      then Ok (PyObject (lit "builtins." ++ name))
      else Raise (NameError (lit "name '" ++ name ++ lit "' is not defined"))
  end.

(** The model object returned by [genai.GenerativeModel]; [temperature] and
    [top_p] are in hundredths. *)
Record generative_model := {
  model_name : pyval;
  temperature_pct : N;
  top_p_pct : N;
  top_k : N;
  max_output_tokens : N
}.

(** ** The PDF source, as the two readers see it *)

Inductive page :=
| PageText (page_text : option str)   (* [page.extract_text()] returns *)
| PageFails (e : exn).                (* reaching or reading the page raises *)

Inductive reading :=
| OpenFails (e : exn)
| Opened (pages : list page).

Record pdf_source := {
  via_pdfplumber : reading;
  via_pypdf2 : reading
}.

Definition provider_name (p : provider) : str :=
  match p with Pdfplumber => lit "pdfplumber" | PyPDF2 => lit "PyPDF2" end.

Definition reading_of (p : provider) (pdf_file : pdf_source) : reading :=
  match p with
  | Pdfplumber => via_pdfplumber pdf_file
  | PyPDF2 => via_pypdf2 pdf_file
  end.

(** Truth value of a [str]. *)
Definition nonempty (t : str) : bool :=
  match t with [] => false | _ :: _ => true end.

(** [f"\n\n[Page {i+1}]\n{page_text}"] *)
Definition page_block (i : nat) (page_text : str) : str :=
  NL ++ NL ++ lit "[Page " ++ str_of_nat (i + 1) ++ lit "]" ++ NL ++ page_text.

(** The page loop shared by both readers: the text accumulated so far, and
    the exception that ended the loop, if any.  What was appended before an
    exception stays in [text]. *)
Fixpoint read_pages (pages : list page) (i : nat) (text : str)
  : str * option exn :=
  match pages with
  | [] => (text, None)
  | PageFails e :: _ => (text, Some e)
  | PageText page_text :: rest =>
      let text :=
        match page_text with
        | Some t => if nonempty t then text ++ page_block i t else text
        | None => text
        end in
      if (PROCESSING_CHUNK_SIZE <? len text)%N then (text, None)
      else read_pages rest (S i) text
  end.

Definition read_all (r : reading) (text : str) : str * option exn :=
  match r with
  | OpenFails e => (text, Some e)
  | Opened pages => read_pages pages 0 text
  end.

(** The text a reader yields on its own, starting from the empty text. *)
Definition provider_text (p : provider) (pdf_file : pdf_source) : str :=
  fst (read_all (reading_of p pdf_file) []).

(** ** Outline parsing (the first loop of [create_presentation]) *)

Definition index_error {A} : outcome A :=
  Raise (IndexError (lit "list index out of range")).

(** [xs[i]] *)
Definition subscript {A} (xs : list A) (i : nat) : outcome A :=
  match nth_error xs i with
  | Some x => Ok x
  | None => index_error
  end.

(** The body of the loop for one line: the title to append, if any. *)
Definition parse_line (line : str) : outcome (option str) :=
  if startswith (lit "Slide") line then
    let parts := split (lit " - ") line in
    if (2 <=? len parts)%N then
      match subscript parts 0 with
      | Ok part0 =>
          match subscript (split (lit ": ") part0) 1 with
          | Ok seg => Ok (Some (strip_chars (lit "[]") seg))
          | Raise e => Raise e
          | Halt => Halt
          end
      | Raise e => Raise e
      | Halt => Halt
      end
    else Ok None
  else Ok None.

Fixpoint parse_lines (ls : list str) (slides_to_create : list str)
  : outcome (list str) :=
  match ls with
  | [] => Ok slides_to_create
  | line :: rest =>
      match parse_line line with
      | Ok (Some slide_title) =>
          parse_lines rest (slides_to_create ++ [slide_title])
      | Ok None => parse_lines rest slides_to_create
      | Raise e => Raise e
      | Halt => Halt
      end
  end.

Definition parse_slide_structure (slide_structure : str) : outcome (list str) :=
  parse_lines (split NL slide_structure) [].

(** ** Fixed texts of [generate_slide_content] *)

Definition EMPTY_PLACEHOLDER : str :=
  lines [ lit "- Key point from document (Page X)";
          lit "- Important finding (Page Y)";
          lit "- Relevant detail (Page Z)" ].

Definition ERROR_PLACEHOLDER : str :=
  lines [ lit "- Document point 1 (Page X)";
          lit "- Document point 2 (Page Y)";
          lit "- Document point 3 (Page Z)" ].

Definition MARKERS : list str := [ lit "-"; [BULLET]; lit "*" ].

Definition content_prompt (pdf_text slide_title : str) : str :=
  lines
    [ [];
      lit "        Generate specific content for PowerPoint slide titled: "
        ++ QUOTE ++ slide_title ++ QUOTE;
      lit "        ";
      lit "        DOCUMENT CONTENT:";
      lit "        " ++ slice_to PROCESSING_CHUNK_SIZE pdf_text;
      lit "        ";
      lit "        REQUIREMENTS:";
      lit "        1. Extract 3-5 specific points from the document";
      lit "        2. Each point must include concrete details";
      lit "        3. Use only factual information from the document";
      lit "        4. Format as bullet points with page references like (Page 3)";
      lit "        5. If no specific content found, use general document themes";
      lit "        ";
      lit "        EXAMPLE OUTPUT:";
      lit "        - Revenue increased by 23% in Q3 (Page 5)";
      lit "        - Customer satisfaction reached 4.8/5 (Page 8)";
      lit "        - New products launched in September (Page 12)";
      lit "        " ].

(** [any(marker in content for marker in ['-', '•', '*'])] *)
Definition has_marker (content : str) : bool :=
  existsb (fun marker => contains marker content) MARKERS.

(** The post-processing of the text the service returned. *)
Definition ensure_bullets (content : str) : str :=
  if negb (nonempty (strip content)) then EMPTY_PLACEHOLDER
  else if negb (has_marker content)
  then lit "- " ++ replace NL (NL ++ lit "- ") content
  else content.

Definition BODY_FORMAT : paragraph_format :=
  {| font_size_pt := 18; font_rgb := (0, 0, 0)%N; align_left := true |}.

Definition add_slide (prs : presentation) (sl : slide) : presentation :=
  {| slide_width := slide_width prs;
     slide_height := slide_height prs;
     slides := slides prs ++ [sl] |}.

Section Script.

Variable W : Type.
Variable E : env W.

Let M := M W.
Let lib := lib E.

(** ** [configure_gemini] *)

Definition configure_gemini : M generative_model :=
  try_except
    (_ <- lift (load_global (lit "genai")) ;;
     api_key <- lift (load_global (lit "GEMINI_API_KEY")) ;;
     lib GenaiConfigure ;;
     _ <- lift (load_global (lit "genai")) ;;
     name <- lift (load_global (lit "MODEL_NAME")) ;;
     lib GenaiGenerativeModel ;;
     ret {| model_name := name;
            temperature_pct := 30; top_p_pct := 95; top_k := 40;
            max_output_tokens := 2048 |})
    (fun e =>
       emit (StError (lit "Failed to configure Gemini: " ++ exn_str e)) ;;
       emit StStop ;;
       halt).

(** ** [extract_text_from_pdf] *)

(** One [try: ... except Exception as e: st.warning(...)] block. *)
Definition try_provider (p : provider) (pdf_file : pdf_source) (text : str)
  : M str :=
  emit (Invoke p) ;;
  match read_all (reading_of p pdf_file) text with
  | (text, Some e) =>
      emit (StWarning (provider_name p ++ lit " failed: " ++ exn_str e)) ;;
      ret text
  | (text, None) => ret text
  end.

Definition SCANNED_ERROR : str :=
  lit "Failed to extract sufficient text (document may be scanned)".

Definition extract_text_from_pdf (pdf_file : pdf_source)
  : M (option str * option str) :=
  emit Seek0 ;;
  text <- try_provider Pdfplumber pdf_file [] ;;
  text <- (if (len text <? MIN_CONTENT_LENGTH)%N
           then emit Seek0 ;; try_provider PyPDF2 pdf_file text
           else ret text) ;;
  if (MIN_CONTENT_LENGTH <? len text)%N
  then ret (Some text, None)
  else ret (None, Some SCANNED_ERROR).

(** ** [generate_slide_content] *)

Definition generate_content (prompt : str) : M str :=
  emit (GenerateContent prompt) ;;
  r <- ask (service E prompt) ;;
  of_sum r.

Definition generate_slide_content (pdf_text slide_title : str) : M str :=
  try_except
    (content <- generate_content (content_prompt pdf_text slide_title) ;;
     ret (ensure_bullets content))
    (fun e => ret ERROR_PLACEHOLDER).

(** ** [create_presentation] *)

Definition title_slide (ppt_title : str) : M presentation :=
  lib PptxPresentation ;;
  lib PptxSetSize ;;
  lib PptxSetSize ;;
  lib (PptxSlideLayout 0) ;;
  lib PptxAddSlide ;;
  emit (AddSlide 0) ;;
  lib PptxShapesTitle ;;
  lib (PptxPlaceholder 1) ;;
  lib PptxSetText ;;
  now <- ask (strftime_now E) ;;
  lib PptxSetText ;;
  ret {| slide_width := 13333;
         slide_height := 7500;
         slides := [ {| sl_layout := 0;
                        sl_title := ppt_title;
                        sl_body := lit "Generated " ++ now;
                        sl_format := None |} ] |}.

(** [slide_title.replace('[', '').replace(']', '')] *)
Definition display_title (slide_title : str) : str :=
  replace (lit "]") [] (replace (lit "[") [] slide_title).

(** [if '[Title Slide]' in slide_title: continue] *)
Definition is_title_marker (slide_title : str) : bool :=
  contains (lit "[Title Slide]") slide_title.

(** The body of the second loop, for an entry that is not skipped. *)
Definition content_slide (pdf_text slide_title : str) (prs : presentation)
  : M presentation :=
  content <- generate_slide_content pdf_text slide_title ;;
  lib (PptxSlideLayout 1) ;;
  lib PptxAddSlide ;;
  emit (AddSlide 1) ;;
  lib PptxShapesTitle ;;
  lib (PptxPlaceholder 1) ;;
  lib PptxSetText ;;
  lib PptxSetText ;;
  lib PptxParagraphs ;;
  lib PptxSetFormat ;;
  ret (add_slide prs {| sl_layout := 1;
                        sl_title := display_title slide_title;
                        sl_body := content;
                        sl_format := Some BODY_FORMAT |}).

Fixpoint content_slides (pdf_text : str) (titles : list str)
  (prs : presentation) : M presentation :=
  match titles with
  | [] => ret prs
  | slide_title :: rest =>
      if is_title_marker slide_title
      then content_slides pdf_text rest prs
      else
        prs <- content_slide pdf_text slide_title prs ;;
        content_slides pdf_text rest prs
  end.

Definition save_to_temp (prs : presentation) : M str :=
  r <- ask (named_temporary_file E) ;;
  tmp <- of_sum r ;;
  emit (TempFile tmp) ;;
  lib PptxSave ;;
  emit (Save tmp prs) ;;
  ret tmp.

(** The body of the [try] block. *)
Definition assemble (ppt_title slide_structure pdf_text : str) : M str :=
  prs <- title_slide ppt_title ;;
  slides_to_create <- lift (parse_slide_structure slide_structure) ;;
  prs <- content_slides pdf_text (slice_to MAX_SLIDES slides_to_create) prs ;;
  save_to_temp prs.

Definition create_presentation (ppt_title slide_structure pdf_text : str)
  : M (option str) :=
  try_except
    (tmp <- assemble ppt_title slide_structure pdf_text ;;
     ret (Some tmp))
    (fun e =>
       emit (StError (lit "PPT creation failed: " ++ exn_str e)) ;;
       ret None).

End Script.

(* ================================================================== *)
(** * The outline request and the page script *)
(* ================================================================== *)

(** ** [generate_slide_structure] *)

Definition INDENT : str := lit "        ".

(** The five lines of the required output format, without their
    indentation in the prompt. *)
Definition required_format (ppt_title : str) : list str :=
  [ lit "Slide 1: [Title Slide] - Title: " ++ QUOTE ++ ppt_title ++ QUOTE
      ++ lit ", Subtitle: " ++ QUOTE ++ lit "[Document summary]" ++ QUOTE;
    lit "Slide 2: [Introduction] - [3-5 specific points from document]";
    lit "Slide 3: [Key Finding 1] - [Detailed content from document with page reference]";
    lit "Slide 4: [Key Finding 2] - [Detailed content from document with page reference]";
    lit "Slide 5: [Conclusion] - [Actionable takeaways]" ].

Definition structure_prompt (pdf_text ppt_title : str) : str :=
  lines
    ([ [];
       INDENT ++ lit "Create a detailed PowerPoint outline from this document for title: "
         ++ QUOTE ++ ppt_title ++ QUOTE ++ lit ".";
       INDENT;
       INDENT ++ lit "DOCUMENT CONTENT:";
       INDENT ++ slice_to PROCESSING_CHUNK_SIZE pdf_text;
       INDENT;
       INDENT ++ lit "REQUIRED OUTPUT FORMAT:" ]
     ++ map (app INDENT) (required_format ppt_title)
     ++ [ INDENT;
          INDENT ++ lit "RULES:";
          INDENT ++ lit "- Create exactly 5 slides";
          INDENT ++ lit "- Each slide must have concrete content instructions";
          INDENT ++ lit "- Include specific facts/numbers/quotes when available";
          INDENT ++ lit "- Never invent information not in the document";
          INDENT ++ lit "- Include page references like (Page 5) when possible";
          INDENT ]).

Section OutlineRequest.

Variable W : Type.
Variable E : env W.

Definition generate_slide_structure (pdf_text ppt_title : str)
  : M W (option str * option str) :=
  try_except
    (text <- generate_content E (structure_prompt pdf_text ppt_title) ;;
     ret (Some text, None))
    (fun e =>
       ret (None, Some (lit "Structure generation failed: " ++ exn_str e))).

End OutlineRequest.

(** ** The page: widgets, session, and what the page shows *)

(** The file the uploader returns. *)
Record uploaded_file := {
  uf_size : N;               (* [pdf_file.size], in bytes *)
  uf_source : pdf_source
}.

(** The two keys of [st.session_state] the script uses; [None] is a key that
    is not set. *)
Record session_state := {
  ss_pdf_text : option str;
  ss_slide_structure : option str
}.

(** What a run of the page does, in order: the events of the core functions,
    and the calls into Streamlit and the file system made by [main]. *)
Inductive ui_event :=
| Core (ev : event)
| StSetPageConfig (page_title page_icon layout : str)
| StTitle (body : str)
| StWrite (body : str)
| StFileUploader (label : str)
| StSpinner (text : str)
| StTextInput (label value : str)
| StButton (label : str)
| StSubheader (body : str)
| StTextArea (label value : str)
| StSuccess (body : str)
| StDownloadButton (label data file_name mime : str)
| OpenRead (path : str)                       (* [open(path, "rb")] and [read()] *)
| OsUnlink (path : str).                      (* [os.unlink(path)] *)

Section Page.

Variable W : Type.
Variable E : env W.

(** What the user and the file system answer. *)
Record ui := {
  file_uploader : W -> option uploaded_file * W;
  text_input : W -> str * W;
  button : str -> W -> bool * W;
  (** the text left in the area, given the text it was filled with *)
  text_area : str -> W -> str * W;
  (** [open(path, "rb").read()]: the bytes, or the exception *)
  read_bytes : str -> W -> (str + exn) * W;
  (** whether [os.unlink(path)] raises *)
  unlink_raises : str -> W -> option exn * W
}.

Variable U : ui.

Record app_state := {
  app_world : W;
  app_log : list ui_event;
  session : session_state
}.

Definition App (A : Type) : Type := app_state -> outcome A * app_state.

Definition app_ret {A} (a : A) : App A := fun s => (Ok a, s).

Definition app_bind {A B} (m : App A) (k : A -> App B) : App B :=
  fun s =>
    match m s with
    | (Ok a, s') => k a s'
    | (Raise e, s') => (Raise e, s')
    | (Halt, s') => (Halt, s')
    end.

Definition app_raise {A} (e : exn) : App A := fun s => (Raise e, s).

Definition app_halt {A} : App A := fun s => (Halt, s).

(** [try: m  except Exception as e: h e] *)
Definition app_try {A} (m : App A) (h : exn -> App A) : App A :=
  fun s =>
    match m s with
    | (Raise e, s') => h e s'
    | r => r
    end.

Definition show (ev : ui_event) : App unit :=
  fun s => (Ok tt, {| app_world := app_world s;
                      app_log := app_log s ++ [ev];
                      session := session s |}).

Definition app_ask {A} (f : W -> A * W) : App A :=
  fun s => let (a, w) := f (app_world s) in
           (Ok a, {| app_world := w; app_log := app_log s; session := session s |}).

Definition get_session : App session_state := fun s => (Ok (session s), s).

Definition set_session (ss : session_state) : App unit :=
  fun s => (Ok tt, {| app_world := app_world s; app_log := app_log s; session := ss |}).

(** A call of a core function from the page: it runs in the page's world,
    and the events it logs are appended, in order, to the page's log. *)
Definition call {A} (m : M W A) : App A :=
  fun s =>
    let (r, c) := m {| world := app_world s; log := [] |} in
    (r, {| app_world := world c;
           app_log := app_log s ++ map Core (log c);
           session := session s |}).

End Page.

Arguments app_ret {W A} a.
Arguments app_raise {W A} e.
Arguments app_halt {W A}.
Arguments show {W} ev.
Arguments get_session {W}.
Arguments set_session {W} ss.
Arguments call {W A} m.
Arguments app_ask {W A} f.

Declare Scope app_scope.
Delimit Scope app_scope with app.
Notation "x <- m ;; k" := (app_bind m (fun x => k))
  (at level 61, m at next level, right associativity) : app_scope.
Notation "m ;; k" := (app_bind m (fun _ => k))
  (at level 61, right associativity) : app_scope.

(** ** [main] *)

Definition CHART : N := 128202.        (* U+1F4CA *)
Definition CHECK_MARK : N := 9989.     (* U+2705 *)

Definition PPTX_MIME : str :=
  lit "application/vnd.openxmlformats-officedocument.presentationml.presentation".

(** [f"{ppt_title.replace(' ', '_')}.pptx"] *)
Definition download_name (ppt_title : str) : str :=
  replace (lit " ") (lit "_") ppt_title ++ lit ".pptx".

(** Truth value of an [Optional[str]]. *)
Definition truthy (o : option str) : bool :=
  match o with Some t => nonempty t | None => false end.

Definition type_error {A} : outcome A :=
  Raise (ExternalError (lit "'NoneType' object is not subscriptable")).

Section Main.

Variable W : Type.
Variable E : env W.
Variable U : ui W.

Local Open Scope app_scope.

(** [if st.button("Generate PowerPoint", type="primary"): ...].  Reading
    [st.session_state.pdf_text] fails when the key is not set; an exception
    of [open] or [read] is not caught; one of [os.unlink] is. *)
Definition generate_powerpoint (ppt_title edited_structure : str) : App W unit :=
  show (StSpinner (lit "Creating presentation...")) ;;
  ss <- get_session ;;
  match ss_pdf_text ss with
  | None => app_raise (ExternalError (lit "st.session_state has no attribute 'pdf_text'"))
  | Some pdf_text =>
      ppt_path <- call (create_presentation E ppt_title edited_structure pdf_text) ;;
      if truthy ppt_path then
        match ppt_path with
        | Some path =>
            show (OpenRead path) ;;
            r <- app_ask (read_bytes U path) ;;
            match r with
            | inr e => app_raise e
            | inl ppt_bytes =>
                show (StSuccess (CHECK_MARK :: lit " Presentation generated successfully!")) ;;
                show (StDownloadButton (lit "Download PowerPoint") ppt_bytes
                        (download_name ppt_title) PPTX_MIME) ;;
                show (OsUnlink path) ;;
                _ <- app_ask (unlink_raises U path) ;;     (* except: pass *)
                app_ret tt
            end
        | None => app_ret tt
        end
      else app_ret tt
  end.

(** [if 'slide_structure' in st.session_state: ...] *)
Definition review_structure (ppt_title : str) : App W unit :=
  ss <- get_session ;;
  match ss_slide_structure ss with
  | None => app_ret tt
  | Some value =>
      show (StSubheader (lit "Slide Structure")) ;;
      show (StTextArea (lit "Review and edit if needed:") value) ;;
      edited_structure <- app_ask (text_area U value) ;;
      show (StButton (lit "Generate PowerPoint")) ;;
      clicked <- app_ask (button U (lit "Generate PowerPoint")) ;;
      if clicked then generate_powerpoint ppt_title edited_structure
      else app_ret tt
  end.

(** [if st.button("Analyze Document"): ...].  The pair [(None, None)] is never
    returned by [generate_slide_structure]; the branch for it ends the
    run. *)
Definition analyze_document (pdf_text ppt_title : str) : App W unit :=
  show (StSpinner (lit "Creating slide structure...")) ;;
  r <- call (generate_slide_structure E pdf_text ppt_title) ;;
  let (slide_structure, error) := r in
  if truthy error then
    match error with
    | Some msg => show (Core (StError msg))
    | None => app_ret tt
    end
  else
    match slide_structure with
    | Some text =>
        ss <- get_session ;;
        set_session {| ss_pdf_text := ss_pdf_text ss;
                       ss_slide_structure := Some text |}
    | None => app_raise (ExternalError (lit "slide_structure is None"))
    end.

(** The part of [main] run for an uploaded file.  [extract_text_from_pdf]
    never returns a null text without an error; the branch for it ends the
    run. *)
Definition with_pdf (pdf_file : uploaded_file) : App W unit :=
  if (MAX_PDF_SIZE_MB * 1024 * 1024 <? uf_size pdf_file)%N then
    show (Core (StError (lit "File too large (max "
                           ++ str_of_nat (N.to_nat MAX_PDF_SIZE_MB)
                           ++ lit "MB)")))
  else
    show (StSpinner (lit "Extracting text from PDF...")) ;;
    r <- call (extract_text_from_pdf (uf_source pdf_file)) ;;
    let (pdf_text, error) := r in
    if truthy error then
      match error with
      | Some msg => show (Core (StError msg))
      | None => app_ret tt
      end
    else
      match pdf_text with
      | None => app_raise (ExternalError (lit "pdf_text is None"))
      | Some pdf_text =>
          ss <- get_session ;;
          set_session {| ss_pdf_text := Some pdf_text;
                         ss_slide_structure := ss_slide_structure ss |} ;;
          show (StTextInput (lit "Presentation Title") (lit "Business Report")) ;;
          ppt_title <- app_ask (text_input U) ;;
          show (StButton (lit "Analyze Document")) ;;
          clicked <- app_ask (button U (lit "Analyze Document")) ;;
          (if clicked then analyze_document pdf_text ppt_title else app_ret tt) ;;
          review_structure ppt_title
      end.

(** The part of [main] after the model is initialised. *)
Definition after_model (model : generative_model) : App W unit :=
  show (StFileUploader (lit "Choose PDF file")) ;;
  pdf_file <- app_ask (file_uploader U) ;;
  match pdf_file with
  | Some f => with_pdf f
  | None => app_ret tt
  end.

Definition main : App W unit :=
  show (StSetPageConfig (lit "PDF to PowerPoint Pro") [CHART] (lit "centered")) ;;
  show (StTitle (CHART :: lit " PDF to PowerPoint Converter")) ;;
  show (StWrite (lit "Upload a PDF to generate a professional PowerPoint presentation")) ;;
  model <- app_try
             (call (configure_gemini E))
             (fun e =>
                show (Core (StError (lit "Failed to initialize AI service: " ++ exn_str e))) ;;
                show (Core StStop) ;;
                app_halt) ;;
  after_model model.

End Main.

Unset Implicit Arguments.

(* ================================================================== *)
(** * Vocabulary of the properties, and sample inputs *)
(* ================================================================== *)

(** ** Occurrences, stripping, numerals *)

(** [no_occ sep s]: [sep] does not occur in [s]. *)
Definition no_occ (sep s : str) : Prop := partition sep s = None.

(** [s] does not start with a character of the class [f]. *)
Definition clean_head (f : N -> bool) (s : str) : Prop :=
  match s with [] => True | c :: _ => f c = false end.

Definition is_digit (c : N) : bool := ((48 <=? c) && (c <=? 57))%N.

(** ** Outlines *)

(** A title in brackets, ['[' ++ t ++ ']']. *)
Definition bracketed (t : str) : str := lit "[" ++ t ++ lit "]".

(** The line of the outline shape ['Slide <n>: [<title>] - <rest>']. *)
Definition outline_line (n : nat) (title rest : str) : str :=
  (lit "Slide " ++ str_of_nat n) ++ lit ": " ++ bracketed title
  ++ lit " - " ++ rest.

(** What holds of every title the parser takes from a line. *)
Record parsed_title (t : str) : Prop := {
  pt_dash : no_occ (lit " - ") t;
  pt_colon : no_occ (lit ": ") t;
  pt_line : ~ In LF t;
  pt_head : clean_head (mem (lit "[]")) t;
  pt_last : clean_head (mem (lit "[]")) (rev t)
}.

(** Re-serialization: one line of the outline shape per title, numbered from
    [n], the text after the separator being [rests k] on line [k]. *)
Fixpoint outline_lines (rests : nat -> str) (n : nat) (titles : list str)
  : list str :=
  match titles with
  | [] => []
  | t :: ts => outline_line n t (rests n) :: outline_lines rests (S n) ts
  end.

Definition reserialize (rests : nat -> str) (titles : list str) : str :=
  lines (outline_lines rests 1 titles).

Definition SAMPLE_OUTLINE : str :=
  lines [ lit "Slide 1: [Title Slide] - Title: x, Subtitle: y";
          lit "Slide 2: [Introduction] - points";
          lit "Slide 3: [Key Finding 1] - detail - more (Page 2)";
          lit "Slide 4: [Key Finding 2] - detail (Page 3)";
          lit "Slide 5: [Conclusion] - takeaways" ].

Definition SAMPLE_TITLES : list str :=
  [ lit "Title Slide"; lit "Introduction"; lit "Key Finding 1";
    lit "Key Finding 2"; lit "Conclusion" ].

Definition EDITED_OUTLINE : str :=
  lines [ lit "Slide 1: [Introduction] - points";
          lit "Slide - notes";
          lit "Slide 2: [Conclusion] - takeaways" ].

(** The lines on which the parser raises: they start with ['Slide'], hold
    [' - '], and have no [': '] before the first [' - ']. *)
Definition raises_on (line : str) : bool :=
  startswith (lit "Slide") line
  && match partition (lit " - ") line with
     | Some (part0, _) => negb (contains (lit ": ") part0)
     | None => false
     end.

(** The lines the parser passes over: they do not start with ['Slide'], or
    hold no [' - ']. *)
Definition passed_over (line : str) : bool :=
  negb (startswith (lit "Slide") line && contains (lit " - ") line).

(** The titles of the required output format. *)
Definition REQUIRED_TITLES : list str :=
  [ lit "Title Slide"; lit "Introduction"; lit "Key Finding 1";
    lit "Key Finding 2"; lit "Conclusion" ].

(** ** Runs of the script *)

(** [wp m Q s]: run from [s], [m] appends some events [evs] to the log and
    ends with an outcome [r] such that [Q r evs]. *)
Definition wp {W A} (m : M W A) (Q : outcome A -> list event -> Prop)
  (s : state W) : Prop :=
  exists evs, log (snd (m s)) = log s ++ evs /\ Q (fst (m s)) evs.

(** [prs.slides.add_slide] with the content layout. *)
Definition is_content_add (ev : event) : bool :=
  match ev with AddSlide 1 => true | _ => false end.

Definition content_slides_emitted (evs : list event) : nat :=
  length (filter is_content_add evs).

(** The presentations written, with the path each was written to. *)
Definition saved (evs : list event) : list (str * presentation) :=
  flat_map (fun ev => match ev with Save p prs => [(p, prs)] | _ => [] end) evs.

(** The plan entries that get a content slide. *)
Definition kept (titles : list str) : list str :=
  filter (fun slide_title => negb (is_title_marker slide_title)) titles.

Definition slide_titles (prs : presentation) : list str :=
  map sl_title (slides prs).

(** A world in which no library call raises and the service always gives
    the same answer. *)
Definition calm_env (answer : str + exn) : env unit :=
  {| service := fun _ w => (answer, w);
     lib_raises := fun _ w => (None, w);
     strftime_now := fun w => (lit "03 Nov 2026 10:30", w);
     named_temporary_file := fun w => (inl (lit "/tmp/tmpq3.pptx"), w) |}.

(** A world in which the library calls selected by [bad] raise. *)
Definition failing_env (bad : lib_op -> bool) : env unit :=
  {| service := fun _ w => (inl (lit "- a fact (Page 1)"), w);
     lib_raises := fun op w =>
       (if bad op then Some (ExternalError (lit "library error")) else None, w);
     strftime_now := fun w => (lit "03 Nov 2026 10:30", w);
     named_temporary_file := fun w => (inl (lit "/tmp/tmpq3.pptx"), w) |}.

(** The state a run starts from. *)
Definition start : state unit := {| world := tt; log := [] |}.

(** ** Slide content *)

(** Content the assembler can use: not blank, and with a bullet marker. *)
Definition usable (content : str) : bool :=
  nonempty content && nonempty (strip content) && has_marker content.

(** A line that begins with a bullet marker, leading blanks apart. *)
Definition bullet_line (l : str) : bool :=
  existsb (fun marker => startswith marker (lstrip_by is_space l)) MARKERS.

Definition has_bullet_line (content : str) : bool :=
  existsb bullet_line (split NL content).

(** [model.generate_content] calls. *)
Definition is_generate (ev : event) : bool :=
  match ev with GenerateContent _ => true | _ => false end.

Definition service_calls (evs : list event) : nat :=
  length (filter is_generate evs).

(** A content slide as the second loop of [create_presentation] makes it. *)
Definition content_slide_made (sl : slide) : Prop :=
  sl_layout sl = 1
  /\ sl_format sl = Some BODY_FORMAT
  /\ usable (sl_body sl) = true
  /\ ~ In 91%N (sl_title sl) /\ ~ In 93%N (sl_title sl).

(** The title slide, for the time text [now]. *)
Definition title_slide_made (ppt_title now : str) : slide :=
  {| sl_layout := 0; sl_title := ppt_title;
     sl_body := lit "Generated " ++ now; sl_format := None |}.

(** Two document texts that agree on their first [PROCESSING_CHUNK_SIZE]
    characters. *)
Definition LONG_TEXT_A : str :=
  repeat 120%N (N.to_nat PROCESSING_CHUNK_SIZE) ++ lit "first ending".

Definition LONG_TEXT_B : str :=
  repeat 120%N (N.to_nat PROCESSING_CHUNK_SIZE) ++ lit "another ending".

(** A user who uploads [file], keeps the default title, leaves the outline
    as it is shown and clicks the buttons selected by [clicks]; the written
    file reads as [data] and can be deleted. *)
Definition sample_ui (file : option uploaded_file) (clicks : str -> bool)
  (data : str) : ui unit :=
  {| file_uploader := fun w => (file, w);
     text_input := fun w => (lit "Business Report", w);
     button := fun label w => (clicks label, w);
     text_area := fun value w => (value, w);
     read_bytes := fun _ w => (inl data, w);
     unlink_raises := fun _ w => (None, w) |}.

(** The state a run of the page starts from, with an empty session. *)
Definition app_start : app_state unit :=
  {| app_world := tt; app_log := [];
     session := {| ss_pdf_text := None; ss_slide_structure := None |} |}.

(** A model object, as [configure_gemini] would build it. *)
Definition SAMPLE_MODEL : generative_model :=
  {| model_name := PyStr MODEL_NAME; temperature_pct := 30; top_p_pct := 95;
     top_k := 40; max_output_tokens := 2048 |}.

(** ** Extraction *)

(** The warning a reader leaves, if it raised. *)
Definition warning_of (p : provider) (r : str * option exn) : list event :=
  match snd r with
  | Some e => [StWarning (provider_name p ++ lit " failed: " ++ exn_str e)]
  | None => []
  end.

(** Fifty characters of page text. *)
Definition FIFTY : str := repeat 120%N 50.

(** A document of which each reader gets fifty characters. *)
Definition THIN_PDF : pdf_source :=
  {| via_pdfplumber := Opened [PageText (Some FIFTY)];
     via_pypdf2 := Opened [PageText (Some FIFTY)] |}.

(** A document of which pdfplumber gets two pages of fifty characters. *)
Definition TEXT_PDF : pdf_source :=
  {| via_pdfplumber := Opened [PageText (Some FIFTY); PageText (Some FIFTY)];
     via_pypdf2 := Opened [PageText (Some FIFTY); PageText (Some FIFTY)] |}.

(** The block a page contributes: nothing for a page without text. *)
Definition block_of (i : nat) (page_text : option str) : str :=
  match page_text with
  | Some t => if nonempty t then page_block i t else []
  | None => []
  end.

(** The blocks of pages read without failure, the first at position [i]. *)
Fixpoint blocks_from (i : nat) (texts : list (option str)) : str :=
  match texts with
  | [] => []
  | t :: rest => block_of i t ++ blocks_from (S i) rest
  end.

(** A document of which pdfplumber gets exactly one hundred characters:
    the page marker and eighty-nine characters. *)
Definition EXACT_PDF : pdf_source :=
  {| via_pdfplumber := Opened [PageText (Some (repeat 120%N 89))];
     via_pypdf2 := Opened [PageText (Some (repeat 120%N 200))] |}.

(** A page of fifteen thousand characters. *)
Definition LONG_PAGE : page :=
  PageText (Some (repeat 120%N (N.to_nat PROCESSING_CHUNK_SIZE))).

(** A document pdfplumber cannot open. *)
Definition BROKEN_PDF : pdf_source :=
  {| via_pdfplumber := OpenFails (ExternalError (lit "No /Root object"));
     via_pypdf2 := Opened [PageText (Some (repeat 120%N 200))] |}.

(** A document of which the readers get nine and ten characters. *)
Definition SCANNED_PDF : pdf_source :=
  {| via_pdfplumber := Opened [PageText None; PageText (Some (lit "Figure 1."))];
     via_pypdf2 := Opened [PageText (Some (lit "Figure 1.."))] |}.

(* ================================================================== *)
(** * Facts about the string operations *)
(* ================================================================== *)

Example split_ex :
  split (lit " - ") (lit "Slide 1: [A] - b - c")
  = [lit "Slide 1: [A]"; lit "b"; lit "c"].
Proof. reflexivity. Qed.

Example strip_chars_ex : strip_chars (lit "[]") (lit "[[A]b]") = lit "A]b".
Proof. reflexivity. Qed.

Example str_of_nat_ex : str_of_nat 120 = lit "120" /\ str_of_nat 0 = lit "0".
Proof. split; reflexivity. Qed.

Example replace_ex :
  replace NL (NL ++ lit "- ") (lines [lit "a"; lit "b"; lit "c"])
  = lines [lit "a"; lit "- b"; lit "- c"].
Proof. reflexivity. Qed.

Example strip_ex : strip (lit "  a b   ") = lit "a b" /\ strip (lit "   ") = [].
Proof. split; reflexivity. Qed.

Example page_block_ex :
  page_block 0 (lit "text") = lines [[]; []; lit "[Page 1]"; lit "text"].
Proof. reflexivity. Qed.

Example display_title_ex : display_title (lit "Key [Finding] 1") = lit "Key Finding 1".
Proof. reflexivity. Qed.

Section StrFacts.

Implicit Types (s p sep a b r t : str) (c : N).

Lemma strip_prefix_Some p s r : strip_prefix p s = Some r <-> s = p ++ r.
Proof.
  revert s; induction p as [|x p IH]; intros s; simpl.
  - split; [intros [= ->] | intros ->]; reflexivity.
  - destruct s as [|y s]; [split; discriminate|].
    destruct (N.eqb_spec x y) as [->|ne].
    + rewrite IH. split; [intros ->; reflexivity | intros [= ->]; reflexivity].
    + split; [discriminate | intros [= e _]; congruence].
Qed.

Lemma strip_prefix_app p r : strip_prefix p (p ++ r) = Some r.
Proof. apply strip_prefix_Some; reflexivity. Qed.

(** A prefix test that fails on [x ++ y] already fails on [x]. *)
Lemma strip_prefix_None_l p x y :
  strip_prefix p (x ++ y) = None -> strip_prefix p x = None.
Proof.
  revert x; induction p as [|q p IH]; intros x; simpl; [discriminate|].
  destruct x as [|e x]; simpl; [reflexivity|].
  destruct (N.eqb q e); [apply IH | reflexivity].
Qed.

(** A character foreign to [p] right after [x] keeps the test failing. *)
Lemma strip_prefix_None_barrier p x c y :
  ~ In c p -> strip_prefix p (x ++ [c]) = None ->
  strip_prefix p (x ++ c :: y) = None.
Proof.
  revert x; induction p as [|q p IH]; intros x nin; simpl; [discriminate|].
  destruct x as [|e x]; simpl.
  - destruct (N.eqb_spec q c) as [->|]; [|reflexivity].
    exfalso; apply nin; left; reflexivity.
  - destruct (N.eqb q e); [|reflexivity].
    apply IH. intros h; apply nin; right; exact h.
Qed.

Lemma strip_prefix_hd_neq q p c s : q <> c -> strip_prefix (q :: p) (c :: s) = None.
Proof. intros ne; simpl. destruct (N.eqb_spec q c); congruence. Qed.

Lemma partition_cons sep c s :
  partition sep (c :: s) =
  match strip_prefix sep (c :: s) with
  | Some rest => Some ([], rest)
  | None => match partition sep s with
            | Some (a, rest) => Some (c :: a, rest)
            | None => None
            end
  end.
Proof. reflexivity. Qed.

Lemma partition_Some sep s a r :
  partition sep s = Some (a, r) -> s = a ++ sep ++ r.
Proof.
  revert a r; induction s as [|c s IH]; intros a r.
  - simpl. destruct (strip_prefix sep []) eqn:e; [|discriminate].
    intros [= <- <-]. apply strip_prefix_Some in e. exact e.
  - rewrite partition_cons.
    destruct (strip_prefix sep (c :: s)) eqn:e.
    + intros [= <- <-]. apply strip_prefix_Some in e. exact e.
    + destruct (partition sep s) as [[a' r']|] eqn:e'; [|discriminate].
      intros [= <- <-]. simpl. f_equal. apply IH; reflexivity.
Qed.

Lemma no_occ_cons sep c s :
  no_occ sep (c :: s) <-> strip_prefix sep (c :: s) = None /\ no_occ sep s.
Proof.
  unfold no_occ. rewrite partition_cons.
  destruct (strip_prefix sep (c :: s)); [split; [discriminate | intros [? _]; discriminate]|].
  destruct (partition sep s) as [[? ?]|]; split; try discriminate; auto.
  intros [_ ?]; discriminate.
Qed.

Lemma no_occ_nil q sep : no_occ (q :: sep) [].
Proof. reflexivity. Qed.

Lemma no_occ_app sep x y : no_occ sep (x ++ y) -> no_occ sep x /\ no_occ sep y.
Proof.
  induction x as [|c x IH]; simpl; intros h.
  - split; [|exact h]. destruct sep; [destruct y; discriminate h|reflexivity].
  - apply no_occ_cons in h. destruct h as [h1 h2].
    destruct (IH h2) as [hx hy]. split; [|exact hy].
    apply no_occ_cons. split; [|exact hx].
    apply (strip_prefix_None_l sep (c :: x) y). exact h1.
Qed.

Lemma partition_unfold sep s :
  partition sep s =
  match strip_prefix sep s with
  | Some rest => Some ([], rest)
  | None => match s with
            | [] => None
            | c :: s' => match partition sep s' with
                         | Some (a, rest) => Some (c :: a, rest)
                         | None => None
                         end
            end
  end.
Proof. destruct s; reflexivity. Qed.

Lemma partition_here sep b : partition sep (sep ++ b) = Some ([], b).
Proof. rewrite partition_unfold, strip_prefix_app. reflexivity. Qed.

Lemma strip_prefix_None_snoc p x c :
  ~ In c p -> strip_prefix p x = None -> strip_prefix p (x ++ [c]) = None.
Proof.
  revert x; induction p as [|q p IH]; intros x nin; simpl; [discriminate|].
  destruct x as [|e x]; simpl.
  - intros _. destruct (N.eqb_spec q c) as [->|]; [|reflexivity].
    exfalso; apply nin; left; reflexivity.
  - destruct (N.eqb q e); [|reflexivity].
    apply IH. intros h; apply nin; right; exact h.
Qed.

Lemma no_occ_nonempty sep s : no_occ sep s -> sep <> [].
Proof. intros h ->. destruct s; discriminate h. Qed.

Lemma no_occ_cons_barrier sep c s :
  ~ In c sep -> no_occ sep s -> no_occ sep (c :: s).
Proof.
  intros nin h. apply no_occ_cons. split; [|exact h].
  destruct sep as [|q sep]; [exfalso; exact (no_occ_nonempty _ _ h eq_refl)|].
  apply strip_prefix_hd_neq. intros ->. apply nin; left; reflexivity.
Qed.

Lemma no_occ_snoc_barrier sep c s :
  ~ In c sep -> no_occ sep s -> no_occ sep (s ++ [c]).
Proof.
  intros nin. induction s as [|d s IH]; intros h.
  - simpl. apply no_occ_cons_barrier; assumption.
  - apply no_occ_cons in h. destruct h as [h1 h2].
    simpl. apply no_occ_cons. split; [|apply IH; exact h2].
    change (d :: s ++ [c]) with ((d :: s) ++ [c]).
    apply strip_prefix_None_snoc; assumption.
Qed.

(** The first character of [sep] is absent from [a]: the first occurrence of
    [sep] in [a ++ sep ++ b] is the one written. *)
Lemma partition_hd_absent q sep a b :
  ~ In q a -> partition (q :: sep) (a ++ (q :: sep) ++ b) = Some (a, b).
Proof.
  induction a as [|d a IH]; intros nin.
  - exact (partition_here (q :: sep) b).
  - change ((d :: a) ++ (q :: sep) ++ b) with (d :: (a ++ (q :: sep) ++ b)).
    rewrite partition_cons, strip_prefix_hd_neq.
    + rewrite IH; [reflexivity|]. intros h; apply nin; right; exact h.
    + intros ->. apply nin; left; reflexivity.
Qed.

(** [a] ends with a character foreign to [sep] and holds no occurrence of
    [sep]: the first occurrence in [a ++ sep ++ b] is the one written. *)
Lemma partition_barrier sep a c b :
  ~ In c sep -> no_occ sep (a ++ [c]) ->
  partition sep ((a ++ [c]) ++ sep ++ b) = Some (a ++ [c], b).
Proof.
  intros nin. induction a as [|d a IH]; intros h.
  - destruct sep as [|q sep]; [exfalso; exact (no_occ_nonempty _ _ h eq_refl)|].
    change (([] ++ [c]) ++ (q :: sep) ++ b) with (c :: ((q :: sep) ++ b)).
    rewrite partition_cons, strip_prefix_hd_neq.
    + rewrite partition_here. reflexivity.
    + intros ->. apply nin; left; reflexivity.
  - simpl in h. apply no_occ_cons in h. destruct h as [h1 h2].
    change (((d :: a) ++ [c]) ++ sep ++ b) with (d :: ((a ++ [c]) ++ sep ++ b)).
    rewrite partition_cons.
    replace (d :: (a ++ [c]) ++ sep ++ b) with ((d :: a) ++ c :: (sep ++ b))
      by (simpl; rewrite <- app_assoc; reflexivity).
    rewrite (strip_prefix_None_barrier sep (d :: a) c (sep ++ b) nin h1).
    rewrite IH by exact h2. reflexivity.
Qed.

Lemma partition_before_no_occ sep s a r :
  sep <> [] -> partition sep s = Some (a, r) -> no_occ sep a.
Proof.
  intros ne. revert a r; induction s as [|c s IH]; intros a r.
  - simpl. destruct sep; [contradiction|discriminate].
  - rewrite partition_cons.
    destruct (strip_prefix sep (c :: s)) eqn:e.
    + intros [= <- <-]. destruct sep; [contradiction|reflexivity].
    + destruct (partition sep s) as [[a' r']|] eqn:e'; [|discriminate].
      intros [= <- <-]. apply no_occ_cons. split; [|eapply IH; reflexivity].
      apply partition_Some in e'. subst s.
      apply (strip_prefix_None_l sep (c :: a') (sep ++ r')). exact e.
Qed.

Lemma partition_shorter sep s a r :
  sep <> [] -> partition sep s = Some (a, r) -> length r < length s.
Proof.
  intros ne h. apply partition_Some in h. subst s.
  rewrite !length_app. destruct sep; [contradiction|simpl; lia].
Qed.

Lemma split_upto_enough sep n m s :
  sep <> [] -> length s <= n -> length s <= m ->
  split_upto n sep s = split_upto m sep s.
Proof.
  intros ne. revert m s; induction n as [|n IH]; intros m s hn hm.
  - destruct s; [|simpl in hn; lia].
    destruct m; [reflexivity|]. simpl. destruct sep; [contradiction|reflexivity].
  - destruct m as [|m].
    + destruct s; [|simpl in hm; lia].
      simpl. destruct sep; [contradiction|reflexivity].
    + simpl. destruct (partition sep s) as [[a r]|] eqn:e; [|reflexivity].
      pose proof (partition_shorter _ _ _ _ ne e).
      f_equal. apply IH; lia.
Qed.

(** The defining equation of [split]. *)
Lemma split_unfold sep s :
  sep <> [] ->
  split sep s = match partition sep s with
                | None => [s]
                | Some (a, r) => a :: split sep r
                end.
Proof.
  intros ne. unfold split.
  destruct (partition sep s) as [[a r]|] eqn:e.
  - pose proof (partition_shorter _ _ _ _ ne e).
    destruct (length s) eqn:el; [lia|]. simpl. rewrite e. f_equal.
    apply split_upto_enough; [exact ne|lia|lia].
  - destruct (length s); simpl; [reflexivity|]. rewrite e. reflexivity.
Qed.

Lemma split_no_occ sep s : no_occ sep s -> split sep s = [s].
Proof.
  intros h. rewrite split_unfold by exact (no_occ_nonempty _ _ h).
  unfold no_occ in h. rewrite h. reflexivity.
Qed.

(** Every part of a split is free of the separator and is a piece of the
    text. *)
Lemma split_part sep s p :
  sep <> [] -> In p (split sep s) ->
  no_occ sep p /\ exists pre post, s = pre ++ p ++ post.
Proof.
  intros ne. remember (length s) as n eqn:en.
  assert (hl : length s <= n) by lia. clear en.
  revert s hl; induction n as [|n IH]; intros s hl;
    rewrite split_unfold by exact ne;
    destruct (partition sep s) as [[a r]|] eqn:e.
  - pose proof (partition_shorter _ _ _ _ ne e). lia.
  - intros [<-|[]]. split; [exact e|]. exists [], []. rewrite app_nil_r. reflexivity.
  - pose proof (partition_shorter _ _ _ _ ne e) as hr.
    pose proof (partition_Some _ _ _ _ e) as es.
    intros [<-|hin].
    + split; [exact (partition_before_no_occ _ _ _ _ ne e)|].
      exists [], (sep ++ r). exact es.
    + destruct (IH r ltac:(lia) hin) as [hno [pre [post er]]].
      split; [exact hno|]. exists (a ++ sep ++ pre), post.
      rewrite es, er, <- !app_assoc. reflexivity.
  - intros [<-|[]]. split; [exact e|]. exists [], []. rewrite app_nil_r. reflexivity.
Qed.

Lemma split_nonempty sep s : sep <> [] -> split sep s <> [].
Proof.
  intros ne. rewrite split_unfold by exact ne.
  destruct (partition sep s) as [[? ?]|]; discriminate.
Qed.

Lemma no_occ_single c s : no_occ [c] s <-> ~ In c s.
Proof.
  induction s as [|d s IH].
  - split; [intros _ []|reflexivity].
  - rewrite no_occ_cons, IH. simpl.
    destruct (N.eqb_spec c d) as [->|ne].
    + split; [intros [h _]; discriminate h|]. intros h; exfalso; apply h; left; reflexivity.
    + split; [intros [_ h] [e|hin]; [congruence|exact (h hin)]|].
      intros h; split; [reflexivity|]. intros hin; apply h; right; exact hin.
Qed.

Lemma no_occ_hd_absent q sep s : ~ In q s -> no_occ (q :: sep) s.
Proof.
  induction s as [|d s IH]; intros nin; [reflexivity|].
  apply no_occ_cons. split.
  - apply strip_prefix_hd_neq. intros ->. apply nin; left; reflexivity.
  - apply IH. intros h; apply nin; right; exact h.
Qed.

(** Splitting the joined lines gives the lines back, for a one-character
    separator that no line contains. *)
Lemma split_join_single c ls :
  ls <> [] -> Forall (fun l => ~ In c l) ls -> split [c] (join [c] ls) = ls.
Proof.
  induction ls as [|l ls IH]; [contradiction|]. intros _ hall.
  inversion hall as [|? ? hl hls]; subst.
  destruct ls as [|l' ls].
  - simpl. apply split_no_occ, no_occ_single, hl.
  - change (join [c] (l :: l' :: ls)) with (l ++ [c] ++ join [c] (l' :: ls)).
    rewrite split_unfold by discriminate.
    rewrite partition_hd_absent by exact hl.
    f_equal. apply IH; [discriminate|exact hls].
Qed.

(** ** Stripping *)

Lemma lstrip_split f s :
  exists pre, s = pre ++ lstrip_by f s /\ forallb f pre = true.
Proof.
  induction s as [|c s [pre [e h]]]; simpl.
  - exists []. split; reflexivity.
  - destruct (f c) eqn:fc.
    + exists (c :: pre). simpl. rewrite fc, h. split; [f_equal; exact e|reflexivity].
    + exists []. split; reflexivity.
Qed.

Lemma lstrip_clean f s : clean_head f (lstrip_by f s).
Proof.
  induction s as [|c s IH]; simpl; [exact I|].
  destruct (f c) eqn:fc; [exact IH|exact fc].
Qed.

Lemma lstrip_of_clean f s : clean_head f s -> lstrip_by f s = s.
Proof. destruct s as [|c s]; simpl; [reflexivity|]. intros ->. reflexivity. Qed.

Lemma lstrip_app_all f pre x :
  forallb f pre = true -> lstrip_by f (pre ++ x) = lstrip_by f x.
Proof.
  induction pre as [|c pre IH]; simpl; [reflexivity|].
  intros h. apply andb_prop in h. destruct h as [-> h]. exact (IH h).
Qed.

Lemma lstrip_all f s : forallb f s = true -> lstrip_by f s = [].
Proof.
  intros h. rewrite <- (app_nil_r s), lstrip_app_all by exact h. reflexivity.
Qed.

Lemma forallb_rev f (l : str) : forallb f (rev l) = forallb f l.
Proof.
  induction l as [|c l IH]; simpl; [reflexivity|].
  rewrite forallb_app, IH. simpl. rewrite andb_true_r. apply andb_comm.
Qed.

Lemma rstrip_split f s :
  exists post, s = rstrip_by f s ++ post /\ forallb f post = true.
Proof.
  unfold rstrip_by.
  destruct (lstrip_split f (rev s)) as [pre [e h]].
  exists (rev pre). split; [|rewrite forallb_rev; exact h].
  rewrite <- rev_app_distr, <- e, rev_involutive. reflexivity.
Qed.

(** What [strip_by] removes are characters of the stripped class, on both
    sides. *)
Lemma strip_by_split f s :
  exists pre post,
    s = pre ++ strip_by f s ++ post
    /\ forallb f pre = true /\ forallb f post = true.
Proof.
  unfold strip_by.
  destruct (lstrip_split f s) as [pre [e1 h1]].
  destruct (rstrip_split f (lstrip_by f s)) as [post [e2 h2]].
  exists pre, post. split; [|split; assumption].
  rewrite <- e2. exact e1.
Qed.

Lemma strip_by_nil_all f s : strip_by f s = [] -> forallb f s = true.
Proof.
  intros e. destruct (strip_by_split f s) as [pre [post [es [h1 h2]]]].
  rewrite e in es. rewrite es. simpl. rewrite forallb_app, h1, h2. reflexivity.
Qed.

(** The stripped text neither starts nor ends with a stripped character. *)
Lemma strip_by_clean f s :
  clean_head f (strip_by f s) /\ clean_head f (rev (strip_by f s)).
Proof.
  split.
  - unfold strip_by.
    destruct (rstrip_split f (lstrip_by f s)) as [post [e _]].
    pose proof (lstrip_clean f s) as hc. rewrite e in hc.
    destruct (rstrip_by f (lstrip_by f s)); [exact I|exact hc].
  - unfold strip_by, rstrip_by. rewrite rev_involutive. apply lstrip_clean.
Qed.

(** Stripping a text that is clean on both ends, wrapped in stripped
    characters, gives the text back. *)
Lemma strip_by_wrapped f pre u post :
  clean_head f u -> clean_head f (rev u) ->
  forallb f pre = true -> forallb f post = true ->
  strip_by f (pre ++ u ++ post) = u.
Proof.
  intros hu hr hpre hpost. unfold strip_by.
  rewrite lstrip_app_all by exact hpre.
  destruct u as [|c u].
  - simpl. rewrite lstrip_all by exact hpost. reflexivity.
  - rewrite lstrip_of_clean by exact hu.
    unfold rstrip_by. rewrite rev_app_distr.
    rewrite lstrip_app_all by (rewrite forallb_rev; exact hpost).
    rewrite lstrip_of_clean by exact hr. apply rev_involutive.
Qed.

(** ** Decimal numerals *)

Lemma digit_is_digit n : is_digit (digit (n mod 10)) = true.
Proof.
  unfold is_digit, digit.
  pose proof (Nat.mod_upper_bound n 10 ltac:(discriminate)).
  apply andb_true_intro. split; apply N.leb_le; lia.
Qed.

Lemma str_of_nat_upto_digits fuel n acc :
  forallb is_digit acc = true ->
  forallb is_digit (str_of_nat_upto fuel n acc) = true.
Proof.
  revert n acc; induction fuel as [|fuel IH]; intros n acc h;
    cbn [str_of_nat_upto]; [exact h|].
  assert (h' : forallb is_digit (digit (n mod 10) :: acc) = true)
    by (cbn [forallb]; rewrite digit_is_digit; exact h).
  destruct (n / 10 =? 0); [exact h'|apply IH; exact h'].
Qed.

Lemma str_of_nat_digits n : forallb is_digit (str_of_nat n) = true.
Proof. apply str_of_nat_upto_digits. reflexivity. Qed.

Lemma digits_no_char c s :
  is_digit c = false -> forallb is_digit s = true -> ~ In c s.
Proof.
  intros hc hs hin. rewrite forallb_forall in hs.
  specialize (hs c hin). congruence.
Qed.

End StrFacts.

(* ================================================================== *)
(** * Outline parsing *)
(* ================================================================== *)

Section Outline.

Implicit Types (s sep line title rest t : str) (c : N).

Lemma no_occ_char_absent sep c s : In c sep -> ~ In c s -> no_occ sep s.
Proof.
  intros hc nin. unfold no_occ.
  destruct (partition sep s) as [[a r]|] eqn:e; [|reflexivity].
  apply partition_Some in e. exfalso. apply nin. rewrite e.
  apply in_or_app; right. apply in_or_app; left. exact hc.
Qed.

Lemma no_occ_app_barrier sep c x y :
  ~ In c sep -> no_occ sep x -> no_occ sep y -> no_occ sep (x ++ c :: y).
Proof.
  intros nin hx hy. induction x as [|d x IH].
  - apply no_occ_cons_barrier; assumption.
  - apply no_occ_cons in hx. destruct hx as [h1 h2].
    change ((d :: x) ++ c :: y) with (d :: (x ++ c :: y)).
    apply no_occ_cons. split; [|exact (IH h2)].
    apply (strip_prefix_None_barrier sep (d :: x) c y nin).
    apply (strip_prefix_None_snoc sep (d :: x) c nin h1).
Qed.

Lemma no_occ_bracketed sep t :
  ~ In 91%N sep -> ~ In 93%N sep -> no_occ sep t -> no_occ sep (bracketed t).
Proof.
  intros h1 h2 h. unfold bracketed. simpl.
  apply no_occ_cons_barrier; [exact h1|].
  apply no_occ_snoc_barrier; assumption.
Qed.

Lemma subscript_In {A} (xs : list A) i x : subscript xs i = Ok x -> In x xs.
Proof.
  unfold subscript. destruct (nth_error xs i) eqn:e; [|discriminate].
  intros [= <-]. eapply nth_error_In; exact e.
Qed.

Lemma dash_nonempty : lit " - " <> [].
Proof. discriminate. Qed.

Lemma colon_nonempty : lit ": " <> [].
Proof. discriminate. Qed.

(** The parser only takes titles with these properties. *)
Lemma parse_line_title line t :
  ~ In LF line -> parse_line line = Ok (Some t) -> parsed_title t.
Proof.
  intros hlf. unfold parse_line. cbv zeta.
  destruct (startswith (lit "Slide") line); [|discriminate].
  rewrite (split_unfold (lit " - ") line dash_nonempty).
  destruct (partition (lit " - ") line) as [[a r]|] eqn:e;
    [|cbv; discriminate].
  destruct (2 <=? len (a :: split (lit " - ") r))%N; [|discriminate].
  cbn [subscript nth_error].
  destruct (subscript (split (lit ": ") a) 1) as [seg| |] eqn:es;
    try discriminate.
  intros [= <-].
  apply subscript_In in es.
  destruct (split_part _ _ _ colon_nonempty es) as [hseg [pre [post ea]]].
  pose proof (partition_before_no_occ _ _ _ _ dash_nonempty e) as ha.
  pose proof (partition_Some _ _ _ _ e) as el.
  unfold strip_chars.
  destruct (strip_by_split (mem (lit "[]")) seg) as [p1 [p2 [eseg _]]].
  destruct (strip_by_clean (mem (lit "[]")) seg) as [hc1 hc2].
  set (t := strip_by (mem (lit "[]")) seg) in *.
  constructor; try assumption.
  - rewrite ea, eseg in ha.
    apply no_occ_app in ha. destruct ha as [_ ha].
    apply no_occ_app in ha. destruct ha as [ha _].
    apply no_occ_app in ha. destruct ha as [_ ha].
    apply no_occ_app in ha. destruct ha as [ha _]. exact ha.
  - rewrite eseg in hseg.
    apply no_occ_app in hseg. destruct hseg as [_ hseg].
    apply no_occ_app in hseg. destruct hseg as [hseg _]. exact hseg.
  - intros hin. apply hlf. rewrite el, ea, eseg.
    apply in_or_app; left. apply in_or_app; right. apply in_or_app; left.
    apply in_or_app; right. apply in_or_app; left. exact hin.
Qed.

Lemma slide_head_no_colon n : ~ In 58%N (lit "Slide " ++ str_of_nat n).
Proof.
  intros h. apply in_app_or in h. destruct h as [h|h].
  - simpl in h. repeat (destruct h as [h|h]; [discriminate h|]). exact h.
  - revert h. apply digits_no_char; [reflexivity|apply str_of_nat_digits].
Qed.

(** A line of the outline shape written with such a title parses to it. *)
Lemma parse_line_outline_line n t rest :
  parsed_title t -> parse_line (outline_line n t rest) = Ok (Some t).
Proof.
  intros [hd hc _ hh hl]. unfold parse_line. cbv zeta.
  assert (es : startswith (lit "Slide") (outline_line n t rest) = true)
    by reflexivity.
  rewrite es.
  set (part0 := (lit "Slide " ++ str_of_nat n) ++ lit ": " ++ bracketed t).
  assert (ep : partition (lit " - ") (outline_line n t rest) = Some (part0, rest)).
  { assert (hb : no_occ (lit " - ") part0).
    { unfold part0.
      change (lit ": " ++ bracketed t) with (58%N :: 32%N :: 91%N :: (t ++ lit "]")).
      replace ((lit "Slide " ++ str_of_nat n) ++ 58%N :: 32%N :: 91%N :: t ++ lit "]")
        with (((lit "Slide " ++ str_of_nat n) ++ lit ": ") ++ 91%N :: (t ++ lit "]"))
        by (rewrite <- app_assoc; reflexivity).
      apply no_occ_app_barrier.
      - cbv. intuition discriminate.
      - apply (no_occ_char_absent _ 45%N); [cbv; tauto|].
        intros h. apply in_app_or in h. destruct h as [h|h].
        + apply in_app_or in h. destruct h as [h|h].
          * simpl in h. repeat (destruct h as [h|h]; [discriminate h|]). exact h.
          * revert h. apply digits_no_char; [reflexivity|apply str_of_nat_digits].
        + simpl in h. repeat (destruct h as [h|h]; [discriminate h|]). exact h.
      - apply no_occ_snoc_barrier; [cbv; intuition discriminate|exact hd]. }
    assert (eq0 : part0 = ((lit "Slide " ++ str_of_nat n) ++ lit ": [" ++ t) ++ [93%N]).
    { unfold part0, bracketed. rewrite <- !app_assoc. reflexivity. }
    unfold outline_line. fold part0.
    replace ((lit "Slide " ++ str_of_nat n) ++ lit ": " ++ bracketed t ++ lit " - " ++ rest)
      with (part0 ++ lit " - " ++ rest)
      by (unfold part0; rewrite <- !app_assoc; reflexivity).
    rewrite eq0 in hb |- *.
    apply partition_barrier; [cbv; intuition discriminate|exact hb]. }
  rewrite (split_unfold _ _ dash_nonempty), ep.
  match goal with |- context [(2 <=? ?x)%N] =>
    assert (e2 : (2 <=? x)%N = true) end.
  { pose proof (split_nonempty (lit " - ") rest dash_nonempty) as hne.
    destruct (split (lit " - ") rest); [contradiction|].
    apply N.leb_le. unfold len. simpl length. lia. }
  rewrite e2. cbn [subscript nth_error].
  assert (e3 : split (lit ": ") part0 = [lit "Slide " ++ str_of_nat n; bracketed t]).
  { rewrite (split_unfold _ _ colon_nonempty). unfold part0.
    rewrite (partition_hd_absent 58%N [32%N] _ _ (slide_head_no_colon n)).
    f_equal. apply split_no_occ.
    apply no_occ_bracketed; [cbv; intuition discriminate..|exact hc]. }
  rewrite e3. cbn [subscript nth_error]. do 2 f_equal.
  unfold strip_chars, bracketed.
  apply strip_by_wrapped; [exact hh|exact hl|reflexivity|reflexivity].
Qed.

Lemma split_lines_no_LF s : Forall (fun l => ~ In LF l) (split NL s).
Proof.
  apply Forall_forall. intros l hin.
  destruct (split_part NL s l ltac:(discriminate) hin) as [h _].
  apply no_occ_single. exact h.
Qed.

Lemma parse_lines_titles ls acc titles :
  Forall (fun l => ~ In LF l) ls ->
  parse_lines ls acc = Ok titles ->
  exists new, titles = acc ++ new /\ Forall parsed_title new.
Proof.
  intros hall. revert acc. induction hall as [|line ls hl _ IH]; intros acc; simpl.
  - intros [= <-]. exists []. rewrite app_nil_r. split; constructor.
  - destruct (parse_line line) as [[t|]| |] eqn:e; try discriminate.
    + intros h. destruct (IH _ h) as [new [-> hnew]].
      exists (t :: new). rewrite <- app_assoc. split; [reflexivity|].
      constructor; [exact (parse_line_title line t hl e)|exact hnew].
    + apply IH.
Qed.

Lemma parse_lines_outline_lines rests n titles acc :
  Forall parsed_title titles ->
  parse_lines (outline_lines rests n titles) acc = Ok (acc ++ titles).
Proof.
  intros hall. revert n acc.
  induction hall as [|t ts ht _ IH]; intros n acc; simpl.
  - rewrite app_nil_r. reflexivity.
  - rewrite (parse_line_outline_line n t (rests n) ht), IH, <- app_assoc.
    reflexivity.
Qed.

Lemma outline_line_no_LF n t rest :
  ~ In LF t -> ~ In LF rest -> ~ In LF (outline_line n t rest).
Proof.
  intros ht hr h. unfold outline_line, bracketed in h.
  repeat (apply in_app_or in h; destruct h as [h|h]);
    try (simpl in h; repeat (destruct h as [h|h]; [discriminate h|]); exact h);
    try contradiction.
  revert h. apply digits_no_char; [reflexivity|apply str_of_nat_digits].
Qed.

Lemma outline_lines_no_LF (rests : nat -> str) n titles :
  (forall k, ~ In LF (rests k)) -> Forall parsed_title titles ->
  Forall (fun l => ~ In LF l) (outline_lines rests n titles).
Proof.
  intros hr hall. revert n. induction hall as [|t ts ht _ IH]; intros n; simpl.
  - constructor.
  - constructor; [|apply IH].
    apply outline_line_no_LF; [exact (pt_line _ ht)|apply hr].
Qed.

(** C9. Parsing is idempotent under re-serialization: when the outline
    parses to a sequence of titles, writing these titles back as lines of the
    shape ['Slide <n>: [<title>] - <rest>'] (whatever one-line text follows
    the separator) and parsing again gives the same sequence. *)
Theorem parse_reserialize_idempotent
  (slide_structure : str) (titles : list str) (rests : nat -> str) :
  parse_slide_structure slide_structure = Ok titles ->
  (forall k, ~ In LF (rests k)) ->
  parse_slide_structure (reserialize rests titles) = Ok titles.
Proof.
  unfold parse_slide_structure. intros hp hr.
  destruct (parse_lines_titles _ _ _ (split_lines_no_LF slide_structure) hp)
    as [new [-> hnew]].
  simpl in *. unfold reserialize.
  destruct new as [|t ts]; [reflexivity|].
  unfold lines, NL. rewrite split_join_single.
  - apply (parse_lines_outline_lines rests 1 (t :: ts) [] hnew).
  - discriminate.
  - apply outline_lines_no_LF; assumption.
Qed.

Lemma parse_reserialize_idempotent_witness :
  parse_slide_structure SAMPLE_OUTLINE = Ok SAMPLE_TITLES
  /\ parse_slide_structure (reserialize (fun _ => lit "text") SAMPLE_TITLES)
     = Ok SAMPLE_TITLES.
Proof.
  split; [reflexivity|].
  apply (parse_reserialize_idempotent SAMPLE_OUTLINE SAMPLE_TITLES).
  - reflexivity.
  - intros k h. simpl in h. repeat (destruct h as [h|h]; [discriminate h|]). exact h.
Defined.

End Outline.

(* ================================================================== *)
(** * Reasoning about the effect monad *)
(* ================================================================== *)

Section Wp.

Variable W : Type.
Variable E : env W.

Lemma wp_mono {A} (m : M W A) (Q Q' : outcome A -> list event -> Prop) (s : state W) :
  (forall r evs, Q r evs -> Q' r evs) -> wp m Q s -> wp m Q' s.
Proof. intros h [evs [e q]]. exists evs. split; [exact e|exact (h _ _ q)]. Qed.

Lemma wp_ret {A} (a : A) Q (s : state W) : Q (Ok a) [] -> wp (ret a) Q s.
Proof. intros q. exists []. simpl. rewrite app_nil_r. split; [reflexivity|exact q]. Qed.

Lemma wp_lift {A} (r : outcome A) Q (s : state W) : Q r [] -> wp (lift r) Q s.
Proof. intros q. exists []. simpl. rewrite app_nil_r. split; [reflexivity|exact q]. Qed.

Lemma wp_raise {A} e (Q : outcome A -> list event -> Prop) (s : state W) :
  Q (Raise e) [] -> wp (raise e) Q s.
Proof. intros q. exists []. simpl. rewrite app_nil_r. split; [reflexivity|exact q]. Qed.

Lemma wp_halt {A} (Q : outcome A -> list event -> Prop) (s : state W) :
  Q Halt [] -> wp halt Q s.
Proof. intros q. exists []. simpl. rewrite app_nil_r. split; [reflexivity|exact q]. Qed.

Lemma wp_emit ev Q (s : state W) : Q (Ok tt) [ev] -> wp (emit ev) Q s.
Proof. intros q. exists [ev]. split; [reflexivity|exact q]. Qed.

Lemma wp_ask {A} (f : W -> A * W) Q (s : state W) :
  (forall a, Q (Ok a) []) -> wp (ask f) Q s.
Proof.
  intros q. exists []. unfold ask. destruct (f (world s)) as [a w]. simpl.
  rewrite app_nil_r. split; [reflexivity|apply q].
Qed.

Lemma wp_of_sum {A} (r : A + exn) Q (s : state W) :
  (forall a, Q (Ok a) []) -> (forall e, Q (Raise e) []) -> wp (of_sum r) Q s.
Proof.
  intros q1 q2. destruct r; [apply wp_ret, q1|apply wp_raise, q2].
Qed.

Lemma wp_bind {A B} (m : M W A) (k : A -> M W B) Q (s : state W) :
  wp m (fun r evs1 =>
          match r with
          | Ok a => forall s', wp (k a) (fun r2 evs2 => Q r2 (evs1 ++ evs2)) s'
          | Raise e => Q (Raise e) evs1
          | Halt => Q Halt evs1
          end) s ->
  wp (bind m k) Q s.
Proof.
  intros [evs1 [e1 q]]. unfold wp, bind.
  destruct (m s) as [[a|e|] s1]; simpl in *.
  - destruct (q s1) as [evs2 [e2 q2]]. exists (evs1 ++ evs2).
    split; [|exact q2]. rewrite e2, e1, app_assoc. reflexivity.
  - exists evs1. split; assumption.
  - exists evs1. split; assumption.
Qed.

Lemma wp_try_except {A} (m : M W A) (h : exn -> M W A) Q (s : state W) :
  wp m (fun r evs1 =>
          match r with
          | Raise e => forall s', wp (h e) (fun r2 evs2 => Q r2 (evs1 ++ evs2)) s'
          | _ => Q r evs1
          end) s ->
  wp (try_except m h) Q s.
Proof.
  intros [evs1 [e1 q]]. unfold wp, try_except.
  destruct (m s) as [[a|e|] s1]; simpl in *.
  - exists evs1. split; assumption.
  - destruct (q s1) as [evs2 [e2 q2]]. exists (evs1 ++ evs2).
    split; [|exact q2]. rewrite e2, e1, app_assoc. reflexivity.
  - exists evs1. split; assumption.
Qed.

Lemma wp_lib op Q (s : state W) :
  Q (Ok tt) [] -> (forall e, Q (Raise e) []) -> wp (lib E op) Q s.
Proof.
  intros q1 q2. unfold lib. apply wp_bind, wp_ask. intros [e|] s'.
  - apply wp_raise, q2.
  - apply wp_ret, q1.
Qed.

Lemma wp_generate_content prompt Q (s : state W) :
  (forall text, Q (Ok text) [GenerateContent prompt]) ->
  (forall e, Q (Raise e) [GenerateContent prompt]) ->
  wp (generate_content E prompt) Q s.
Proof.
  intros q1 q2. unfold generate_content.
  apply wp_bind, wp_emit. intros s1.
  apply wp_bind, wp_ask. intros r s2.
  apply wp_of_sum; [exact q1|exact q2].
Qed.

End Wp.

(** One step of symbolic execution of a script. *)
Ltac wp_step :=
  lazymatch goal with
  | |- wp (bind _ _) _ _ => apply wp_bind
  | |- wp (try_except _ _) _ _ => apply wp_try_except
  | |- wp (ret _) _ _ => apply wp_ret
  | |- wp (lift _) _ _ => apply wp_lift
  | |- wp (raise _) _ _ => apply wp_raise
  | |- wp halt _ _ => apply wp_halt
  | |- wp (emit _) _ _ => apply wp_emit
  | |- wp (ask _) _ _ => apply wp_ask; intros ?
  | |- wp (of_sum _) _ _ => apply wp_of_sum; intros ?
  | |- wp (lib _ _) _ _ => apply wp_lib; [|intros ?]
  | |- wp (generate_content _ _) _ _ => apply wp_generate_content; intros ?
  | |- forall _ : state _, _ => intros ?
  end.

(* ================================================================== *)
(** * Slide content *)
(* ================================================================== *)

Lemma strip_nonblank c s :
  is_space c = false -> nonempty (strip (c :: s)) = true.
Proof.
  intros hc. destruct (strip (c :: s)) eqn:e; [|reflexivity].
  apply strip_by_nil_all in e. simpl in e. rewrite hc in e. discriminate e.
Qed.

Lemma ensure_bullets_usable text : usable (ensure_bullets text) = true.
Proof.
  unfold ensure_bullets, usable.
  destruct (nonempty (strip text)) eqn:hs; cbn [negb]; [|reflexivity].
  destruct (has_marker text) eqn:hm; cbn [negb].
  - rewrite hs, hm. destruct text; [discriminate hs|reflexivity].
  - change (lit "- " ++ replace NL (NL ++ lit "- ") text)
      with (45%N :: 32%N :: replace NL (NL ++ lit "- ") text).
    rewrite strip_nonblank by reflexivity. reflexivity.
Qed.

Section Content.

Variable W : Type.
Variable E : env W.

(** What [generate_slide_content] does, whatever the service answers: one
    call to the service, never an exception, and usable content. *)
Lemma generate_slide_content_spec pdf_text slide_title s :
  wp (generate_slide_content E pdf_text slide_title)
     (fun r evs =>
        evs = [GenerateContent (content_prompt pdf_text slide_title)]
        /\ exists content, r = Ok content /\ usable content = true) s.
Proof.
  unfold generate_slide_content.
  repeat wp_step; cbn beta iota; repeat wp_step; (split; [reflexivity|]).
  - eexists. split; [reflexivity|apply ensure_bullets_usable].
  - eexists. split; [reflexivity|reflexivity].
Qed.

(** C4. Whatever the document text, the slide title and the behaviour of
    the generation service, [generate_slide_content] returns a string that is
    not empty, not whitespace-only, and holds at least one of the bullet
    markers; the string is the post-processed answer when the service
    answers, and the fixed three-line placeholder when it raises. *)
Theorem generate_slide_content_usable (pdf_text slide_title : str) (s : state W) :
  exists content,
    fst (generate_slide_content E pdf_text slide_title s) = Ok content
    /\ nonempty content = true
    /\ nonempty (strip content) = true
    /\ has_marker content = true
    /\ content =
       match fst (service E (content_prompt pdf_text slide_title) (world s)) with
       | inl text => ensure_bullets text
       | inr _ => ERROR_PLACEHOLDER
       end
    /\ ERROR_PLACEHOLDER =
       lines [ lit "- Document point 1 (Page X)";
               lit "- Document point 2 (Page Y)";
               lit "- Document point 3 (Page Z)" ].
Proof.
  unfold generate_slide_content.
  remember (content_prompt pdf_text slide_title) as prompt eqn:ep.
  cbv [try_except bind generate_content emit ask world log].
  destruct (service E prompt (let (world, _) := s in world)) as [[text|e] w];
    cbn [of_sum ret raise fst].
  - exists (ensure_bullets text).
    pose proof (ensure_bullets_usable text) as h. unfold usable in h.
    apply andb_prop in h. destruct h as [h h3].
    apply andb_prop in h. destruct h as [h1 h2].
    repeat split; try assumption; reflexivity.
  - exists ERROR_PLACEHOLDER. repeat split; reflexivity.
Qed.

End Content.

(* ================================================================== *)
(** * Presentation assembly *)
(* ================================================================== *)

(** ** What a log shows *)

Lemma content_slides_emitted_app a b :
  content_slides_emitted (a ++ b)
  = content_slides_emitted a + content_slides_emitted b.
Proof. unfold content_slides_emitted. rewrite filter_app, length_app. reflexivity. Qed.

Lemma saved_app a b : saved (a ++ b) = saved a ++ saved b.
Proof. apply flat_map_app. Qed.

Lemma kept_length titles : length (kept titles) <= length titles.
Proof. apply filter_length_le. Qed.

Lemma slice_to_length {A} n (l : list A) : length (slice_to n l) <= N.to_nat n.
Proof. apply firstn_le_length. Qed.

Ltac wp_run := repeat (cbv beta iota; wp_step).

Section Assembly.

Variable W : Type.
Variable E : env W.

Lemma title_slide_spec ppt_title s :
  wp (title_slide E ppt_title)
     (fun r evs =>
        saved evs = [] /\ content_slides_emitted evs = 0
        /\ match r with
           | Ok prs => slide_titles prs = [ppt_title]
           | Raise _ => True
           | Halt => False
           end) s.
Proof. unfold title_slide. wp_run; cbv beta iota; repeat split. Qed.

Lemma content_slide_spec pdf_text slide_title prs s :
  wp (content_slide E pdf_text slide_title prs)
     (fun r evs =>
        saved evs = []
        /\ match r with
           | Ok prs' =>
               content_slides_emitted evs = 1
               /\ slide_titles prs' = slide_titles prs ++ [display_title slide_title]
           | Raise _ => content_slides_emitted evs <= 1
           | Halt => False
           end) s.
Proof.
  unfold content_slide. wp_step.
  apply (wp_mono _ _ _ _ s) with (2 := generate_slide_content_spec W E _ _ s).
  intros r evs [-> [content [-> _]]].
  wp_run; cbv beta iota; (split; [reflexivity|]);
    try (cbn; lia).
  split; [reflexivity|].
  unfold slide_titles, add_slide. cbn [slides]. rewrite map_app. reflexivity.
Qed.

Lemma content_slides_spec pdf_text titles : forall prs s,
  wp (content_slides E pdf_text titles prs)
     (fun r evs =>
        saved evs = []
        /\ content_slides_emitted evs <= length titles
        /\ match r with
           | Ok prs' =>
               content_slides_emitted evs = length (kept titles)
               /\ slide_titles prs'
                  = slide_titles prs ++ map display_title (kept titles)
           | Raise _ => True
           | Halt => False
           end) s.
Proof.
  induction titles as [|slide_title rest IH]; intros prs s; cbn [content_slides].
  - wp_step. rewrite app_nil_r. repeat split. cbn. lia.
  - unfold kept. cbn [filter].
    destruct (is_title_marker slide_title); cbn [negb].
    + apply (wp_mono _ _ _ _ s) with (2 := IH prs s).
      intros r evs (h1 & h2 & h3). repeat split; [exact h1|cbn; lia|exact h3].
    + wp_step.
      apply (wp_mono _ _ _ _ s) with (2 := content_slide_spec _ _ _ s).
      intros [prs'| |] evs [h1 h2].
      * destruct h2 as [h2 h3]. intros s'.
        apply (wp_mono _ _ _ _ s') with (2 := IH prs' s').
        intros r evs2 (k1 & k2 & k3).
        rewrite saved_app, content_slides_emitted_app, h1, k1, h2.
        repeat split; [cbn; lia|].
        destruct r; try exact k3. destruct k3 as [k3 k4].
        split; [cbn [length]; fold (kept rest); lia|].
        cbn [map]. fold (kept rest).
        rewrite k4, h3, <- app_assoc. reflexivity.
      * repeat split; [exact h1|cbn; lia].
      * contradiction.
Qed.

Lemma save_to_temp_spec prs s :
  wp (save_to_temp E prs)
     (fun r evs =>
        content_slides_emitted evs = 0
        /\ match r with
           | Ok tmp => saved evs = [(tmp, prs)]
           | Raise _ => saved evs = []
           | Halt => False
           end) s.
Proof. unfold save_to_temp. wp_run; cbv beta iota; repeat split. Qed.

(** The body of the [try] block: what it leaves in the log, by outcome. *)
Lemma assemble_spec ppt_title slide_structure pdf_text s :
  wp (assemble E ppt_title slide_structure pdf_text)
     (fun r evs =>
        content_slides_emitted evs <= N.to_nat MAX_SLIDES
        /\ match r with
           | Ok tmp =>
               exists titles prs,
                 parse_slide_structure slide_structure = Ok titles
                 /\ saved evs = [(tmp, prs)]
                 /\ content_slides_emitted evs
                    = length (kept (slice_to MAX_SLIDES titles))
                 /\ slide_titles prs
                    = ppt_title
                      :: map display_title (kept (slice_to MAX_SLIDES titles))
           | Raise _ => saved evs = []
           | Halt => False
           end) s.
Proof.
  unfold assemble. wp_step.
  apply (wp_mono _ _ _ _ s) with (2 := title_slide_spec ppt_title s).
  intros [prs0| |] evs0 (h1 & h2 & h3); [|split; [lia|exact h1]|contradiction].
  intros s1. wp_step. wp_step.
  destruct (parse_slide_structure slide_structure) as [titles| |] eqn:ep.
  - intros s2. wp_step.
    apply (wp_mono _ _ _ _ s2)
      with (2 := content_slides_spec pdf_text (slice_to MAX_SLIDES titles) prs0 s2).
    pose proof (slice_to_length MAX_SLIDES titles) as hlen.
    intros [prs| |] evs1 (k1 & k2 & k3).
    + intros s3. destruct k3 as [k3 k4].
      apply (wp_mono _ _ _ _ s3) with (2 := save_to_temp_spec prs s3).
      intros r evs2 [j1 j2].
      rewrite !saved_app, !content_slides_emitted_app, h1, h2, k1, j1.
      split; [cbn in *; lia|].
      destruct r as [tmp|e|]; [|exact j2|exact j2].
      exists titles, prs. rewrite j2, k4, h3. repeat split.
      rewrite k3. cbn. lia.
    + rewrite !saved_app, !content_slides_emitted_app, h1, h2, k1.
      split; [cbn in *; lia|reflexivity].
    + contradiction.
  - rewrite app_nil_r. split; [lia|exact h1].
  - (* parsing never ends the script run *)
    exfalso. revert ep. unfold parse_slide_structure.
    generalize (split NL slide_structure), (@nil str).
    intros ls. induction ls as [|line ls IH]; intros acc; simpl; [discriminate|].
    assert (hl : parse_line line <> Halt).
    { unfold parse_line. cbv zeta.
      destruct (startswith _ line); [|discriminate].
      destruct (2 <=? _)%N; [|discriminate].
      destruct (subscript _ 0) eqn:e0; try discriminate.
      - destruct (subscript _ 1) eqn:e1; try discriminate.
        unfold subscript in e1. destruct (nth_error _ 1); discriminate e1.
      - unfold subscript in e0. destruct (nth_error _ 0); discriminate e0. }
    destruct (parse_line line) as [[t|]| |]; try discriminate;
      [apply IH|apply IH|contradiction].
Qed.

End Assembly.

Section AssemblyClaims.

Variable W : Type.
Variable E : env W.

Lemma create_presentation_spec ppt_title slide_structure pdf_text s :
  wp (create_presentation E ppt_title slide_structure pdf_text)
     (fun r evs =>
        content_slides_emitted evs <= N.to_nat MAX_SLIDES
        /\ match r with
           | Ok (Some tmp) =>
               exists titles prs,
                 parse_slide_structure slide_structure = Ok titles
                 /\ saved evs = [(tmp, prs)]
                 /\ content_slides_emitted evs
                    = length (kept (slice_to MAX_SLIDES titles))
                 /\ slide_titles prs
                    = ppt_title
                      :: map display_title (kept (slice_to MAX_SLIDES titles))
           | Ok None => saved evs = []
           | _ => False
           end) s.
Proof.
  unfold create_presentation. wp_step. wp_step.
  apply (wp_mono _ _ _ _ s) with (2 := assemble_spec W E _ _ _ s).
  intros [tmp|e|] evs [h1 h2]; [| |contradiction].
  - intros s1. wp_step. rewrite app_nil_r. split; [exact h1|exact h2].
  - intros s1. wp_run.
    rewrite app_nil_r, content_slides_emitted_app, saved_app, h2.
    split; [cbn in *; lia|reflexivity].
Qed.

(** C6. The outcome of [create_presentation] follows the outcome of the body
    of its [try] block (title slide, outline parsing, content slides with
    their formatting, saving).  When the body raises at any point, the
    function returns [None] and no presentation has been written.  When the
    body completes, the function returns the path, and under that path the
    whole presentation has been written: the title slide and one content
    slide per plan entry that is kept.  No other outcome exists. *)
Theorem create_presentation_all_or_nothing
  (ppt_title slide_structure pdf_text : str) (s : state W) :
  exists evs,
    log (snd (create_presentation E ppt_title slide_structure pdf_text s))
    = log s ++ evs
    /\ match fst (assemble E ppt_title slide_structure pdf_text s) with
       | Ok tmp =>
           fst (create_presentation E ppt_title slide_structure pdf_text s)
           = Ok (Some tmp)
           /\ exists titles prs,
                parse_slide_structure slide_structure = Ok titles
                /\ saved evs = [(tmp, prs)]
                /\ slide_titles prs
                   = ppt_title
                     :: map display_title (kept (slice_to MAX_SLIDES titles))
       | Raise e =>
           fst (create_presentation E ppt_title slide_structure pdf_text s)
           = Ok None
           /\ saved evs = []
           /\ last evs Seek0
              = StError (lit "PPT creation failed: " ++ exn_str e)
       | Halt => False
       end.
Proof.
  destruct (assemble_spec W E ppt_title slide_structure pdf_text s)
    as [evs [e1 [_ q]]].
  unfold create_presentation, try_except, bind, emit, ret.
  destruct (assemble E ppt_title slide_structure pdf_text s) as [[tmp|e|] s1];
    cbn [fst snd log world] in *.
  - exists evs. split; [exact e1|]. split; [reflexivity|].
    destruct q as (titles & prs & q1 & q2 & _ & q3). exists titles, prs. auto.
  - exists (evs ++ [StError (lit "PPT creation failed: " ++ exn_str e)]).
    rewrite e1, <- app_assoc, saved_app, q, last_last.
    repeat split.
  - contradiction.
Qed.

(** C7. Whatever the outline, [create_presentation] adds at most
    [MAX_SLIDES] content slides, and a presentation it writes holds at most
    the title slide and [MAX_SLIDES] content slides; parsing itself does not
    cap: an outline of [n] well-formed lines parses to [n] titles. *)
Theorem content_slides_capped
  (ppt_title slide_structure pdf_text : str) (s : state W) :
  (exists evs,
     log (snd (create_presentation E ppt_title slide_structure pdf_text s))
     = log s ++ evs
     /\ (N.of_nat (content_slides_emitted evs) <= MAX_SLIDES)%N
     /\ forallb (fun '(_, prs) => (len (slides prs) <=? 1 + MAX_SLIDES)%N)
          (saved evs) = true)
  /\ forall n,
       parse_slide_structure (lines (repeat (lit "Slide 2: [Extra] - text") n))
       = Ok (repeat (lit "Extra") n).
Proof.
  split.
  - destruct (create_presentation_spec ppt_title slide_structure pdf_text s)
      as [evs [e1 [h1 h2]]].
    exists evs. split; [exact e1|]. split; [unfold MAX_SLIDES in *; lia|].
    destruct (fst (create_presentation E ppt_title slide_structure pdf_text s))
      as [[tmp|]| |]; try contradiction.
    + destruct h2 as (titles & prs & _ & -> & _ & h3).
      cbn [saved flat_map app forallb]. rewrite andb_true_r.
      apply N.leb_le. unfold len.
      assert (hl : length (slides prs)
                   = S (length (kept (slice_to MAX_SLIDES titles)))).
      { unfold slide_titles in h3. apply (f_equal (@length str)) in h3.
        rewrite length_map in h3. rewrite h3. cbn [length].
        rewrite length_map. reflexivity. }
      pose proof (kept_length (slice_to MAX_SLIDES titles)).
      pose proof (slice_to_length MAX_SLIDES titles).
      unfold MAX_SLIDES in *. lia.
    + rewrite h2. reflexivity.
  - intros n. unfold parse_slide_structure.
    assert (hp : forall acc,
               parse_lines (repeat (lit "Slide 2: [Extra] - text") n) acc
               = Ok (acc ++ repeat (lit "Extra") n)).
    { induction n as [|n IH]; intros acc.
      - cbn [repeat parse_lines]. rewrite app_nil_r. reflexivity.
      - cbn [repeat parse_lines].
        change (parse_line (lit "Slide 2: [Extra] - text"))
          with (@Ok (option str) (Some (lit "Extra"))).
        cbv iota. rewrite IH, <- app_assoc. reflexivity. }
    destruct n as [|n]; [reflexivity|].
    unfold lines, NL. rewrite split_join_single.
    + apply (hp []).
    + discriminate.
    + apply Forall_forall. intros l hl. apply repeat_spec in hl. subst l.
      intros h. simpl in h.
      repeat (destruct h as [h|h]; [discriminate h|]). exact h.
Qed.

End AssemblyClaims.

Section AssemblyDefects.

Variable W : Type.
Variable E : env W.

(** C1 (the code departs from the claim).  The entry parsed from the
    well-formed line ['Slide 1: [Title Slide] - ...'] is ['Title Slide'], the
    brackets being stripped at parse time; the skip test looks for the
    bracketed marker and does not match it.  So whenever the assembly of the
    well-formed five-entry outline completes, the presentation written has
    the title slide and five content slides, the first of them titled
    ['Title Slide']; and the assembly does complete in a world where nothing
    raises. *)
Theorem title_slide_entry_not_skipped
  (ppt_title pdf_text : str) (s : state W) :
  parse_line (lit "Slide 1: [Title Slide] - Title: x, Subtitle: y")
  = Ok (Some (lit "Title Slide"))
  /\ is_title_marker (lit "Title Slide") = false
  /\ parse_slide_structure SAMPLE_OUTLINE = Ok SAMPLE_TITLES
  /\ (exists evs,
        log (snd (create_presentation E ppt_title SAMPLE_OUTLINE pdf_text s))
        = log s ++ evs
        /\ match fst (create_presentation E ppt_title SAMPLE_OUTLINE pdf_text s) with
           | Ok (Some tmp) =>
               content_slides_emitted evs = 5
               /\ exists prs,
                    saved evs = [(tmp, prs)]
                    /\ slide_titles prs = ppt_title :: SAMPLE_TITLES
           | Ok None => saved evs = []
           | _ => False
           end)
  /\ fst (create_presentation (calm_env (inl (lit "- a fact (Page 1)")))
            (lit "Q3 Report") SAMPLE_OUTLINE (lit "document text") start)
     = Ok (Some (lit "/tmp/tmpq3.pptx"))
  /\ content_slides_emitted
       (log (snd (create_presentation (calm_env (inl (lit "- a fact (Page 1)")))
                    (lit "Q3 Report") SAMPLE_OUTLINE (lit "document text") start)))
     = 5.
Proof.
  split; [reflexivity|]. split; [reflexivity|]. split; [reflexivity|].
  split; [|split; vm_compute; reflexivity].
  destruct (create_presentation_spec W E ppt_title SAMPLE_OUTLINE pdf_text s)
    as [evs [e1 [_ h]]].
  exists evs. split; [exact e1|].
  destruct (fst (create_presentation E ppt_title SAMPLE_OUTLINE pdf_text s))
    as [[tmp|]| |]; try exact h.
  destruct h as (titles & prs & ep & es & ec & et).
  assert (ep' : parse_slide_structure SAMPLE_OUTLINE = Ok SAMPLE_TITLES)
    by reflexivity.
  rewrite ep' in ep. injection ep as <-.
  split; [rewrite ec; reflexivity|].
  exists prs. split; [exact es|rewrite et; reflexivity].
Qed.

End AssemblyDefects.

Section ParsingDefect.

Variable W : Type.
Variable E : env W.

(** C2 (the code departs from the claim).  A line that starts with ['Slide']
    and holds [' - '] but no [': '] is not skipped: indexing the second
    segment of its first part raises IndexError, parsing of the outline stops
    there, and [create_presentation] returns [None] whatever the world
    does. *)
Theorem line_without_colon_raises (ppt_title pdf_text : str) (s : state W) :
  startswith (lit "Slide") (lit "Slide - notes") = true
  /\ contains (lit " - ") (lit "Slide - notes") = true
  /\ contains (lit ": ") (lit "Slide") = false
  /\ parse_line (lit "Slide - notes")
     = Raise (IndexError (lit "list index out of range"))
  /\ parse_slide_structure EDITED_OUTLINE
     = Raise (IndexError (lit "list index out of range"))
  /\ fst (create_presentation E ppt_title EDITED_OUTLINE pdf_text s) = Ok None.
Proof.
  repeat (split; [reflexivity|]).
  destruct (create_presentation_spec W E ppt_title EDITED_OUTLINE pdf_text s)
    as [evs [_ [_ h]]].
  destruct (fst (create_presentation E ppt_title EDITED_OUTLINE pdf_text s))
    as [[tmp|]| |]; try contradiction; [|reflexivity].
  destruct h as (titles & _ & ep & _).
  assert (ep' : parse_slide_structure EDITED_OUTLINE
                = Raise (IndexError (lit "list index out of range")))
    by reflexivity.
  rewrite ep' in ep. discriminate ep.
Qed.

End ParsingDefect.

(* ================================================================== *)
(** * Bullet lines *)
(* ================================================================== *)

(** C5 (the code departs from the claim).  The service answers the non-empty
    text ['well-known fact']; the hyphen inside the word counts as a marker,
    the text is returned as it is, and none of its lines begins with a bullet
    marker. *)
Theorem hyphenated_answer_has_no_bullet_line (pdf_text slide_title : str) :
  fst (generate_slide_content (calm_env (inl (lit "well-known fact")))
         pdf_text slide_title start)
  = Ok (lit "well-known fact")
  /\ has_marker (lit "well-known fact") = true
  /\ has_bullet_line (lit "well-known fact") = false
  /\ has_bullet_line (ensure_bullets (lit "a plain answer")) = true.
Proof. repeat split; reflexivity. Qed.

(* ================================================================== *)
(** * Configuration *)
(* ================================================================== *)

(** C10. In every world, [configure_gemini] ends in its exception branch:
    the name [GEMINI_API_KEY] is bound neither at module level nor in the
    builtins, loading it raises NameError before any call into the service
    library, the error is reported with [st.error] and [st.stop()] ends the
    run; no model is returned. *)
Theorem configure_gemini_always_stops (W : Type) (E : env W) (s : state W) :
  assoc (lit "GEMINI_API_KEY") module_globals = None
  /\ load_global (lit "GEMINI_API_KEY")
     = Raise (NameError (lit "name 'GEMINI_API_KEY' is not defined"))
  /\ configure_gemini E s
     = (Halt,
        {| world := world s;
           log := (log s
                   ++ [StError (lit "Failed to configure Gemini: name 'GEMINI_API_KEY' is not defined")])
                  ++ [StStop] |}).
Proof. repeat split; reflexivity. Qed.

(* ================================================================== *)
(** * Text extraction *)
(* ================================================================== *)

Lemma len_app {A} (a b : list A) : len (a ++ b) = (len a + len b)%N.
Proof. unfold len. rewrite length_app. lia. Qed.

(** The page loop only appends. *)
Lemma read_pages_grows pages : forall i text,
  (len text <= len (fst (read_pages pages i text)))%N.
Proof.
  induction pages as [|[page_text|e] rest IH]; intros i text;
    cbn [read_pages fst]; try lia.
  set (text' := match page_text with
                | Some t => if nonempty t then text ++ page_block i t else text
                | None => text
                end).
  assert (h : (len text <= len text')%N).
  { unfold text'. destruct page_text as [t|]; [|lia].
    destruct (nonempty t); [rewrite len_app|]; lia. }
  destruct (PROCESSING_CHUNK_SIZE <? len text')%N; cbn [fst]; [exact h|].
  specialize (IH (S i) text'). lia.
Qed.

(** Below the chunk size, what a reader appends to a text is what it yields
    from the empty text. *)
Lemma read_pages_append pages : forall i text0 text,
  (len text0 + len (fst (read_pages pages i text)) <= PROCESSING_CHUNK_SIZE)%N ->
  read_pages pages i (text0 ++ text)
  = (text0 ++ fst (read_pages pages i text), snd (read_pages pages i text)).
Proof.
  induction pages as [|[page_text|e] rest IH]; intros i text0 text;
    cbn [read_pages fst snd]; try reflexivity.
  set (text' := match page_text with
                | Some t => if nonempty t then text ++ page_block i t else text
                | None => text
                end).
  assert (e' : match page_text with
               | Some t => if nonempty t then (text0 ++ text) ++ page_block i t
                           else text0 ++ text
               | None => text0 ++ text
               end = text0 ++ text').
  { unfold text'. destruct page_text as [t|]; [|reflexivity].
    destruct (nonempty t); [rewrite app_assoc|]; reflexivity. }
  rewrite e'. clear e'.
  pose proof (read_pages_grows rest (S i) text') as hg.
  destruct (N.ltb_spec PROCESSING_CHUNK_SIZE (len text')) as [hlt|hle];
    cbn [fst snd]; intros hb.
  - lia.
  - destruct (N.ltb_spec PROCESSING_CHUNK_SIZE (len (text0 ++ text'))) as [hlt'|_].
    + rewrite len_app in hlt'. lia.
    + apply IH. exact hb.
Qed.

Lemma read_all_append r text0 :
  (len text0 + len (fst (read_all r [])) <= PROCESSING_CHUNK_SIZE)%N ->
  read_all r text0 = (text0 ++ fst (read_all r []), snd (read_all r [])).
Proof.
  destruct r as [e|pages]; cbn [read_all fst snd].
  - rewrite app_nil_r. reflexivity.
  - intros h. rewrite <- (app_nil_r text0) at 1.
    apply read_pages_append. exact h.
Qed.

Section Extraction.

Variable W : Type.

Lemma try_provider_run p pdf_file text (s : state W) :
  try_provider p pdf_file text s
  = (Ok (fst (read_all (reading_of p pdf_file) text)),
     {| world := world s;
        log := log s ++ Invoke p
                 :: warning_of p (read_all (reading_of p pdf_file) text) |}).
Proof.
  unfold try_provider, warning_of, bind, emit, ret.
  destruct (read_all (reading_of p pdf_file) text) as [t [e|]];
    cbn [fst snd world log]; rewrite <- ?app_assoc; reflexivity.
Qed.

(** The run of [extract_text_from_pdf], in closed form. *)
Lemma extract_run pdf_file (s : state W) :
  let ra := read_all (via_pdfplumber pdf_file) [] in
  let fallback := (len (fst ra) <? MIN_CONTENT_LENGTH)%N in
  let rb := read_all (via_pypdf2 pdf_file) (fst ra) in
  let text := if fallback then fst rb else fst ra in
  extract_text_from_pdf pdf_file s
  = (Ok (if (MIN_CONTENT_LENGTH <? len text)%N
         then (Some text, None)
         else (None, Some SCANNED_ERROR)),
     {| world := world s;
        log := log s
               ++ [Seek0; Invoke Pdfplumber] ++ warning_of Pdfplumber ra
               ++ (if fallback
                   then [Seek0; Invoke PyPDF2] ++ warning_of PyPDF2 rb
                   else []) |}).
Proof.
  cbv zeta. unfold extract_text_from_pdf.
  unfold bind at 1. unfold emit at 1. cbn [world log].
  unfold bind at 1. rewrite try_provider_run. cbn [reading_of fst snd world log].
  set (ra := read_all (via_pdfplumber pdf_file) []).
  destruct (len (fst ra) <? MIN_CONTENT_LENGTH)%N.
  - unfold bind at 1. unfold bind at 1. unfold emit at 1. cbn [world log].
    rewrite try_provider_run. cbn [reading_of fst snd world log].
    set (rb := read_all (via_pypdf2 pdf_file) (fst ra)).
    destruct (MIN_CONTENT_LENGTH <? len (fst rb))%N; unfold ret;
      (f_equal; f_equal; rewrite <- !app_assoc; reflexivity).
  - unfold bind at 1. unfold ret at 1.
    destruct (MIN_CONTENT_LENGTH <? len (fst ra))%N; unfold ret;
      (f_equal; f_equal; rewrite <- !app_assoc, app_nil_r; reflexivity).
Qed.

(** C8. When pdfplumber alone accumulates text of length at least
    [MIN_CONTENT_LENGTH], [extract_text_from_pdf] invokes pdfplumber and never
    invokes PyPDF2. *)
Theorem fallback_is_lazy (pdf_file : pdf_source) (s : state W) :
  (MIN_CONTENT_LENGTH <= len (provider_text Pdfplumber pdf_file))%N ->
  exists evs,
    log (snd (extract_text_from_pdf pdf_file s)) = log s ++ evs
    /\ In (Invoke Pdfplumber) evs
    /\ ~ In (Invoke PyPDF2) evs.
Proof.
  unfold provider_text. cbn [reading_of]. intros h.
  rewrite extract_run. cbn [snd log].
  destruct (N.ltb_spec (len (fst (read_all (via_pdfplumber pdf_file) [])))
              MIN_CONTENT_LENGTH) as [hlt|_]; [lia|].
  eexists. split; [reflexivity|]. split; [right; left; reflexivity|].
  rewrite app_nil_r. unfold warning_of.
  destruct (snd (read_all (via_pdfplumber pdf_file) [])); cbn;
    intuition discriminate.
Qed.

(** C3, as the code has it.  When each reader alone yields text shorter than
    [MIN_CONTENT_LENGTH], the text kept is pdfplumber's followed by PyPDF2's;
    the function returns no text and the scanned-document error when the two
    lengths together do not exceed [MIN_CONTENT_LENGTH], and the merged text
    with no error when they do. *)
Theorem short_readers_are_merged (pdf_file : pdf_source) (s : state W) :
  let a := provider_text Pdfplumber pdf_file in
  let b := provider_text PyPDF2 pdf_file in
  (len a < MIN_CONTENT_LENGTH)%N ->
  (len b < MIN_CONTENT_LENGTH)%N ->
  fst (extract_text_from_pdf pdf_file s)
  = Ok (if (MIN_CONTENT_LENGTH <? len a + len b)%N
        then (Some (a ++ b), None)
        else (None, Some SCANNED_ERROR)).
Proof.
  cbv zeta. unfold provider_text. cbn [reading_of]. intros ha hb.
  rewrite extract_run. cbn [fst].
  destruct (N.ltb_spec (len (fst (read_all (via_pdfplumber pdf_file) [])))
              MIN_CONTENT_LENGTH) as [_|hge]; [|lia].
  rewrite read_all_append
    by (unfold MIN_CONTENT_LENGTH, PROCESSING_CHUNK_SIZE in *; lia).
  cbn [fst]. rewrite len_app. reflexivity.
Qed.

End Extraction.

Lemma fallback_is_lazy_witness :
  exists evs,
    log (snd (extract_text_from_pdf TEXT_PDF start)) = log start ++ evs
    /\ In (Invoke Pdfplumber) evs
    /\ ~ In (Invoke PyPDF2) evs.
Proof. apply (fallback_is_lazy unit TEXT_PDF start). vm_compute. discriminate. Defined.

Lemma short_readers_are_merged_witness :
  fst (extract_text_from_pdf SCANNED_PDF start)
  = Ok (None, Some SCANNED_ERROR).
Proof.
  apply (short_readers_are_merged unit SCANNED_PDF start); vm_compute; reflexivity.
Defined.

(** C3 as stated fails: each reader yields 61 characters of [THIN_PDF]
    (the page marker and fifty characters), both below [MIN_CONTENT_LENGTH],
    and the function returns the merged 122 characters with no error. *)
Lemma short_readers_counterexample :
  ~ (forall (pdf_file : pdf_source) (s : state unit),
       (len (provider_text Pdfplumber pdf_file) < MIN_CONTENT_LENGTH)%N ->
       (len (provider_text PyPDF2 pdf_file) < MIN_CONTENT_LENGTH)%N ->
       exists error,
         fst (extract_text_from_pdf pdf_file s) = Ok (None, Some error)).
Proof.
  intros h.
  destruct (h THIN_PDF start) as [error e]; [vm_compute; reflexivity..|].
  vm_compute in e. discriminate e.
Qed.

(* ================================================================== *)
(** * Sample runs *)
(* ================================================================== *)

(** The library raises when the presentation is created: nothing is added,
    nothing is written, the error is reported. *)
Example run_presentation_raises :
  create_presentation
    (failing_env (fun op => match op with PptxPresentation => true | _ => false end))
    (lit "Q3 Report") SAMPLE_OUTLINE (lit "document text") start
  = (Ok None,
     {| world := tt;
        log := [StError (lit "PPT creation failed: library error")] |}).
Proof. vm_compute. reflexivity. Qed.

(** The library raises when the file is written: the content slides were
    added to the presentation object, but no presentation is written and no
    path is returned. *)
Example run_save_raises :
  let r := create_presentation
             (failing_env (fun op => match op with PptxSave => true | _ => false end))
             (lit "Q3 Report") SAMPLE_OUTLINE (lit "document text") start in
  fst r = Ok None
  /\ content_slides_emitted (log (snd r)) = 5
  /\ saved (log (snd r)) = []
  /\ last (log (snd r)) Seek0
     = StError (lit "PPT creation failed: library error").
Proof. vm_compute. repeat split; reflexivity. Qed.

(** The service raises on every call: every content slide gets the
    placeholder and the presentation is still written. *)
Example run_service_raises :
  let r := create_presentation
             (calm_env (inr (ExternalError (lit "quota exceeded"))))
             (lit "Q3 Report") (lit "Slide 2: [Introduction] - points")
             (lit "document text") start in
  fst r = Ok (Some (lit "/tmp/tmpq3.pptx"))
  /\ map (fun '(_, prs) => map sl_body (slides prs)) (saved (log (snd r)))
     = [[lit "Generated 03 Nov 2026 10:30"; ERROR_PLACEHOLDER]].
Proof. vm_compute. repeat split; reflexivity. Qed.

(** Twelve well-formed entries: all twelve are parsed, ten get a slide. *)
Example run_twelve_entries :
  let outline := lines (repeat (lit "Slide 2: [Extra] - text") 12) in
  let r := create_presentation (calm_env (inl (lit "- a fact (Page 1)")))
             (lit "Q3 Report") outline (lit "document text") start in
  parse_slide_structure outline = Ok (repeat (lit "Extra") 12)
  /\ content_slides_emitted (log (snd r)) = 10
  /\ map (fun '(_, prs) => length (slides prs)) (saved (log (snd r))) = [11].
Proof. vm_compute. repeat split; reflexivity. Qed.

(** An entry that still holds the bracketed marker inside is skipped. *)
Example run_marker_inside :
  let outline := lit "Slide 1: Intro [Title Slide] here - text" in
  let r := create_presentation (calm_env (inl (lit "- a fact (Page 1)")))
             (lit "Q3 Report") outline (lit "document text") start in
  parse_slide_structure outline = Ok [lit "Intro [Title Slide] here"]
  /\ content_slides_emitted (log (snd r)) = 0.
Proof. vm_compute. repeat split; reflexivity. Qed.

(* ================================================================== *)
(** * Further properties: text extraction *)
(* ================================================================== *)



(** The text of the pages, under the soft cap: one block per page with text,
    numbered by the position of the page in the document. *)
Lemma read_pages_blocks texts : forall i text,
  (len (text ++ blocks_from i texts) <= PROCESSING_CHUNK_SIZE)%N ->
  read_pages (map PageText texts) i text = (text ++ blocks_from i texts, None).
Proof.
  induction texts as [|t rest IH]; intros i text; cbn [map read_pages blocks_from].
  - rewrite app_nil_r. reflexivity.
  - intros h. rewrite app_assoc in h.
    set (text' := match t with
                  | Some u => if nonempty u then text ++ page_block i u else text
                  | None => text
                  end).
    assert (e : text' = text ++ block_of i t).
    { unfold text', block_of. destruct t as [u|];
        [destruct (nonempty u)|]; rewrite ?app_nil_r; reflexivity. }
    rewrite e.
    destruct (N.ltb_spec PROCESSING_CHUNK_SIZE (len (text ++ block_of i t)))
      as [hlt|_].
    + rewrite len_app in h. lia.
    + rewrite IH by exact h. rewrite <- app_assoc. reflexivity.
Qed.

(** Once the text is above the soft cap, the loop has stopped: the pages that
    follow are not read. *)
Lemma read_pages_stops pre rest : forall i text,
  (len text <= PROCESSING_CHUNK_SIZE)%N ->
  (PROCESSING_CHUNK_SIZE < len (fst (read_pages pre i text)))%N ->
  read_pages (pre ++ rest) i text = read_pages pre i text.
Proof.
  induction pre as [|[page_text|e] pre IH]; intros i text hle hgt.
  - cbn [read_pages fst] in hgt. lia.
  - cbn [app read_pages] in *.
    set (text' := match page_text with
                  | Some t => if nonempty t then text ++ page_block i t else text
                  | None => text
                  end) in *.
    destruct (N.ltb_spec PROCESSING_CHUNK_SIZE (len text')) as [_|hle'];
      [reflexivity|].
    apply IH; assumption.
  - reflexivity.
Qed.

Section ExtractionMore.

Variable W : Type.


(** X2. A text of exactly [MIN_CONTENT_LENGTH] characters from pdfplumber
    falls between the two tests: it is not short enough for the fallback
    (PyPDF2 is not invoked) and not long enough to be returned (the
    scanned-document error is). *)
Theorem exact_minimum_is_rejected (pdf_file : pdf_source) (s : state W) :
  len (provider_text Pdfplumber pdf_file) = MIN_CONTENT_LENGTH ->
  fst (extract_text_from_pdf pdf_file s) = Ok (None, Some SCANNED_ERROR)
  /\ exists evs,
       log (snd (extract_text_from_pdf pdf_file s)) = log s ++ evs
       /\ ~ In (Invoke PyPDF2) evs.
Proof.
  unfold provider_text. cbn [reading_of]. intros h.
  rewrite extract_run. cbn [fst snd log]. rewrite h.
  change (MIN_CONTENT_LENGTH <? MIN_CONTENT_LENGTH)%N with false.
  cbv iota. rewrite h.
  change (MIN_CONTENT_LENGTH <? MIN_CONTENT_LENGTH)%N with false.
  split; [reflexivity|].
  eexists. split; [reflexivity|].
  rewrite app_nil_r. unfold warning_of.
  destruct (snd (read_all (via_pdfplumber pdf_file) [])); cbn;
    intuition discriminate.
Qed.

(** X3. When pdfplumber cannot open the document, the failure is reported as
    a warning and not as an error of the extraction: PyPDF2 is invoked from
    the empty text and the outcome is decided by its text alone. *)
Theorem pdfplumber_failure_falls_back
  (pdf_file : pdf_source) (e : exn) (s : state W) :
  via_pdfplumber pdf_file = OpenFails e ->
  fst (extract_text_from_pdf pdf_file s)
  = Ok (if (MIN_CONTENT_LENGTH <? len (provider_text PyPDF2 pdf_file))%N
        then (Some (provider_text PyPDF2 pdf_file), None)
        else (None, Some SCANNED_ERROR))
  /\ log (snd (extract_text_from_pdf pdf_file s))
     = log s
       ++ [Seek0; Invoke Pdfplumber;
           StWarning (lit "pdfplumber failed: " ++ exn_str e);
           Seek0; Invoke PyPDF2]
       ++ warning_of PyPDF2 (read_all (via_pypdf2 pdf_file) []).
Proof.
  intros h. rewrite extract_run. unfold provider_text. cbn [reading_of].
  rewrite h. cbn [read_all fst snd log]. split; reflexivity.
Qed.

(** X4. The soft cap stops the page loop: when the first pages of the
    document already give pdfplumber more than [PROCESSING_CHUNK_SIZE]
    characters, whatever pages follow (readable or failing) change nothing in
    the run. *)
Theorem pages_after_the_cap_are_not_read
  (pre rest : list page) (other : reading) (s : state W) :
  (PROCESSING_CHUNK_SIZE < len (fst (read_pages pre 0 [])))%N ->
  extract_text_from_pdf
    {| via_pdfplumber := Opened (pre ++ rest); via_pypdf2 := other |} s
  = extract_text_from_pdf
      {| via_pdfplumber := Opened pre; via_pypdf2 := other |} s.
Proof.
  intros h. rewrite !extract_run. cbn [via_pdfplumber via_pypdf2 read_all].
  rewrite (read_pages_stops pre rest 0 []); [reflexivity| |exact h].
  unfold PROCESSING_CHUNK_SIZE. cbn. lia.
Qed.

(** X5. Under the soft cap and without a failing page, the text a reader
    yields is the sequence of the page blocks ["\n\n[Page k]\n" ++ text], one
    per page that has text, where [k] is the position of the page in the
    document: pages without text are left out but counted. *)
Theorem page_numbers_follow_position
  (texts : list (option str)) (other : reading) :
  (len (blocks_from 0 texts) <= PROCESSING_CHUNK_SIZE)%N ->
  provider_text Pdfplumber
    {| via_pdfplumber := Opened (map PageText texts); via_pypdf2 := other |}
  = blocks_from 0 texts.
Proof.
  intros h. unfold provider_text. cbn [reading_of via_pdfplumber read_all].
  rewrite read_pages_blocks by exact h. reflexivity.
Qed.

End ExtractionMore.

Lemma exact_minimum_is_rejected_witness :
  fst (extract_text_from_pdf EXACT_PDF start) = Ok (None, Some SCANNED_ERROR)
  /\ exists evs,
       log (snd (extract_text_from_pdf EXACT_PDF start)) = log start ++ evs
       /\ ~ In (Invoke PyPDF2) evs.
Proof. apply (exact_minimum_is_rejected unit EXACT_PDF start). reflexivity. Defined.

Lemma pdfplumber_failure_falls_back_witness :
  fst (extract_text_from_pdf BROKEN_PDF start)
  = Ok (Some (provider_text PyPDF2 BROKEN_PDF), None).
Proof.
  apply (pdfplumber_failure_falls_back unit BROKEN_PDF
           (ExternalError (lit "No /Root object")) start).
  reflexivity.
Defined.

Lemma page_numbers_follow_position_witness :
  provider_text Pdfplumber
    {| via_pdfplumber := Opened (map PageText [None; Some (lit "a"); Some []; Some (lit "b")]);
       via_pypdf2 := Opened [] |}
  = lines [[]; []; lit "[Page 2]"; lit "a"; []; lit "[Page 4]"; lit "b"].
Proof.
  apply (page_numbers_follow_position
           [None; Some (lit "a"); Some []; Some (lit "b")] (Opened [])).
  vm_compute. discriminate.
Defined.

Lemma pages_after_the_cap_are_not_read_witness :
  extract_text_from_pdf
    {| via_pdfplumber :=
         Opened ([LONG_PAGE] ++ [PageFails (ExternalError (lit "bad page"))]);
       via_pypdf2 := Opened [] |} start
  = extract_text_from_pdf
      {| via_pdfplumber := Opened [LONG_PAGE]; via_pypdf2 := Opened [] |} start.
Proof.
  apply (pages_after_the_cap_are_not_read unit [LONG_PAGE]
           [PageFails (ExternalError (lit "bad page"))] (Opened []) start).
  vm_compute. reflexivity.
Defined.

(* ================================================================== *)
(** * Further properties: outline parsing *)
(* ================================================================== *)

Section SplitMore.

Implicit Types (s a b new : str) (c x : N).

Lemma join_cons sep p ps :
  ps <> [] -> join sep (p :: ps) = p ++ sep ++ join sep ps.
Proof. destruct ps; [contradiction|reflexivity]. Qed.

Lemma split_cons_eq c s : split [c] (c :: s) = [] :: split [c] s.
Proof.
  rewrite (split_unfold [c] (c :: s)) by discriminate.
  rewrite partition_cons. cbn [strip_prefix]. rewrite N.eqb_refl. reflexivity.
Qed.

Lemma split_cons_neq c x s :
  x <> c ->
  split [c] (x :: s)
  = match split [c] s with
    | p :: ps => (x :: p) :: ps
    | [] => []
    end.
Proof.
  intros ne.
  rewrite (split_unfold [c] (x :: s)), (split_unfold [c] s) by discriminate.
  rewrite partition_cons, strip_prefix_hd_neq by congruence.
  destruct (partition [c] s) as [[a r]|]; reflexivity.
Qed.

(** Splitting at a character distributes over texts joined by it. *)
Lemma split_single_app c a b :
  split [c] (a ++ [c] ++ b) = split [c] a ++ split [c] b.
Proof.
  induction a as [|x a IH].
  - cbn [app]. rewrite split_cons_eq. reflexivity.
  - change ((x :: a) ++ [c] ++ b) with (x :: (a ++ [c] ++ b)).
    destruct (N.eq_dec x c) as [->|ne].
    + rewrite !split_cons_eq, IH. reflexivity.
    + rewrite !split_cons_neq, IH by exact ne.
      pose proof (split_nonempty [c] a ltac:(discriminate)) as hne.
      destruct (split [c] a); [contradiction|reflexivity].
Qed.

(** Replacing a character: every occurrence becomes [new], the other
    characters stay. *)
Lemma replace_single c new s :
  replace [c] new s
  = flat_map (fun x => if (x =? c)%N then new else [x]) s.
Proof.
  unfold replace. induction s as [|x s IH].
  - reflexivity.
  - pose proof (split_nonempty [c] s ltac:(discriminate)) as hne.
    cbn [flat_map]. destruct (N.eqb_spec x c) as [->|ne].
    + rewrite split_cons_eq, join_cons by exact hne.
      rewrite IH. reflexivity.
    + rewrite split_cons_neq by exact ne.
      rewrite <- IH.
      destruct (split [c] s) as [|p ps]; [contradiction|].
      destruct ps; reflexivity.
Qed.

End SplitMore.

Section ParsingMore.

Implicit Types (s line t : str).

Lemma parse_line_passed_over line :
  passed_over line = true -> parse_line line = Ok None.
Proof.
  unfold passed_over, parse_line, contains. cbv zeta.
  destruct (startswith (lit "Slide") line); [|reflexivity].
  rewrite (split_unfold _ _ dash_nonempty).
  destruct (partition (lit " - ") line) as [[a r]|]; [discriminate|reflexivity].
Qed.

(** The parser raises on a line exactly when [raises_on] says so, and then
    with IndexError. *)
Lemma parse_line_cases line :
  (raises_on line = true /\ parse_line line = index_error)
  \/ (raises_on line = false /\ exists o, parse_line line = Ok o).
Proof.
  unfold raises_on, parse_line, contains. cbv zeta.
  destruct (startswith (lit "Slide") line); cbn [andb]; [|right; split; [reflexivity|eexists; reflexivity]].
  rewrite (split_unfold _ _ dash_nonempty).
  destruct (partition (lit " - ") line) as [[a r]|]; [|right; split; [reflexivity|eexists; reflexivity]].
  match goal with |- context [(2 <=? ?x)%N] =>
    assert (e2 : (2 <=? x)%N = true) end.
  { pose proof (split_nonempty (lit " - ") r dash_nonempty) as hne.
    destruct (split (lit " - ") r); [contradiction|].
    apply N.leb_le. unfold len. simpl length. lia. }
  rewrite e2. cbn [subscript nth_error].
  rewrite (split_unfold _ _ colon_nonempty).
  destruct (partition (lit ": ") a) as [[x y]|]; cbn [negb nth_error].
  - right. split; [reflexivity|].
    pose proof (split_nonempty (lit ": ") y colon_nonempty) as hne.
    destruct (split (lit ": ") y); [contradiction|].
    unfold subscript. cbn [nth_error]. eexists; reflexivity.
  - left. split; reflexivity.
Qed.

Lemma parse_lines_cases ls : forall acc,
  match parse_lines ls acc with
  | Ok _ => existsb raises_on ls = false
  | Raise e =>
      e = IndexError (lit "list index out of range")
      /\ existsb raises_on ls = true
  | Halt => False
  end.
Proof.
  induction ls as [|line ls IH]; intros acc; cbn [parse_lines existsb].
  - reflexivity.
  - destruct (parse_line_cases line) as [[hr hp]|[hr [o hp]]]; rewrite hp, hr.
    + split; reflexivity.
    + cbn [orb]. destruct o; apply IH.
Qed.

(** The titles already collected do not influence what is parsed next. *)
Lemma parse_lines_acc ls : forall acc,
  parse_lines ls acc
  = match parse_lines ls [] with
    | Ok ts => Ok (acc ++ ts)
    | Raise e => Raise e
    | Halt => Halt
    end.
Proof.
  induction ls as [|line ls IH]; intros acc; cbn [parse_lines].
  - rewrite app_nil_r. reflexivity.
  - destruct (parse_line line) as [[t|]| |]; try reflexivity.
    + rewrite (IH (acc ++ [t])), (IH ([] ++ [t])).
      destruct (parse_lines ls []); try reflexivity.
      rewrite <- app_assoc. reflexivity.
    + apply IH.
Qed.

Lemma parse_lines_app l1 l2 : forall acc,
  parse_lines (l1 ++ l2) acc
  = match parse_lines l1 acc with
    | Ok acc' => parse_lines l2 acc'
    | Raise e => Raise e
    | Halt => Halt
    end.
Proof.
  induction l1 as [|line l1 IH]; intros acc; cbn [app parse_lines].
  - reflexivity.
  - destruct (parse_line line) as [[t|]| |]; try reflexivity; apply IH.
Qed.

(** X6. Parsing an outline fails exactly when one of its lines starts with
    ['Slide'], holds [' - '], and has no [': '] before the first [' - ']; the
    failure is always IndexError, and every other outline parses. *)
Theorem parse_fails_exactly_on_bad_lines (slide_structure : str) :
  match parse_slide_structure slide_structure with
  | Ok _ => existsb raises_on (split NL slide_structure) = false
  | Raise e =>
      e = IndexError (lit "list index out of range")
      /\ existsb raises_on (split NL slide_structure) = true
  | Halt => False
  end.
Proof. apply parse_lines_cases. Qed.

(** X7. Parsing distributes over outlines put one after the other: when two
    outlines parse, the outline made of the first, a line break and the
    second parses to the titles of the first followed by those of the
    second. *)
Theorem parse_of_joined_outlines (a b : str) (ta tb : list str) :
  parse_slide_structure a = Ok ta ->
  parse_slide_structure b = Ok tb ->
  parse_slide_structure (a ++ NL ++ b) = Ok (ta ++ tb).
Proof.
  unfold parse_slide_structure, NL. intros ha hb.
  rewrite split_single_app, parse_lines_app, ha, parse_lines_acc, hb.
  reflexivity.
Qed.

(** X8. Lines that do not start with ['Slide'], or hold no [' - '], can be
    added to an outline or removed from it without changing what it parses
    to, titles or failure alike. *)
Theorem passed_over_lines_do_not_matter (before after : list str) (line : str) :
  passed_over line = true ->
  ~ In LF line ->
  Forall (fun l => ~ In LF l) (before ++ after) ->
  parse_slide_structure (lines (before ++ line :: after))
  = parse_slide_structure (lines (before ++ after)).
Proof.
  intros hp hl hall. unfold parse_slide_structure, lines, NL.
  assert (hall' : Forall (fun l => ~ In LF l) (before ++ line :: after)).
  { apply Forall_app in hall. destruct hall as [h1 h2].
    apply Forall_app. split; [exact h1|constructor; assumption]. }
  rewrite (split_join_single LF (before ++ line :: after))
    by (try exact hall'; destruct before; discriminate).
  rewrite parse_lines_app. cbn [parse_lines].
  rewrite (parse_line_passed_over line hp).
  destruct (before ++ after) as [|l0 ls] eqn:e.
  - apply app_eq_nil in e. destruct e as [-> ->]. reflexivity.
  - rewrite <- e in *. rewrite split_join_single; [|rewrite e; discriminate|exact hall].
    rewrite parse_lines_app. reflexivity.
Qed.

(** X9. Every title the parser returns is free of line breaks, of [' - ']
    and of [': '], and neither starts nor ends with a bracket (stripping the
    brackets again changes nothing). *)
Theorem parsed_titles_are_clean (slide_structure : str) (titles : list str) :
  parse_slide_structure slide_structure = Ok titles ->
  Forall (fun t => ~ In LF t
                   /\ contains (lit " - ") t = false
                   /\ contains (lit ": ") t = false
                   /\ strip_chars (lit "[]") t = t) titles.
Proof.
  unfold parse_slide_structure. intros hp.
  destruct (parse_lines_titles _ _ _ (split_lines_no_LF slide_structure) hp)
    as [new [-> hnew]].
  cbn [app]. eapply Forall_impl; [|exact hnew].
  intros t [hd hc hl hh hr]. unfold contains.
  unfold no_occ in hd, hc. rewrite hd, hc.
  repeat split; try assumption.
  unfold strip_chars.
  pose proof (strip_by_wrapped (mem (lit "[]")) [] t [] hh hr eq_refl eq_refl) as e.
  rewrite app_nil_r in e. exact e.
Qed.

(** X10. The five lines the outline prompt requires, written for any title
    without a line break, parse to the five titles
    ['Title Slide', 'Introduction', 'Key Finding 1', 'Key Finding 2',
    'Conclusion']; written with the indentation they have in the prompt, they
    parse to no title at all. *)
Theorem required_format_parses (ppt_title : str) :
  ~ In LF ppt_title ->
  parse_slide_structure (lines (required_format ppt_title)) = Ok REQUIRED_TITLES
  /\ parse_slide_structure (lines (map (app INDENT) (required_format ppt_title)))
     = Ok [].
Proof.
  intros hl.
  assert (hq : ~ In LF (QUOTE ++ ppt_title ++ QUOTE ++ lit ", Subtitle: "
                        ++ QUOTE ++ lit "[Document summary]" ++ QUOTE)).
  { intros h. repeat (apply in_app_or in h; destruct h as [h|h]);
      try contradiction;
      simpl in h; repeat (destruct h as [h|h]; [discriminate h|]); exact h. }
  assert (hall : Forall (fun l => ~ In LF l) (required_format ppt_title)).
  { unfold required_format. repeat constructor;
      try (intros h; simpl in h;
           repeat (destruct h as [h|h]; [discriminate h|]); exact h).
    intros h. apply in_app_or in h. destruct h as [h|h]; [|exact (hq h)].
    simpl in h. repeat (destruct h as [h|h]; [discriminate h|]). exact h. }
  unfold parse_slide_structure, lines, NL. split.
  - rewrite split_join_single; [|discriminate|exact hall].
    unfold required_format. cbn [parse_lines].
    change (lit "Slide 1: [Title Slide] - Title: " ++ QUOTE ++ ppt_title ++ QUOTE
            ++ lit ", Subtitle: " ++ QUOTE ++ lit "[Document summary]" ++ QUOTE)
      with (outline_line 1 (lit "Title Slide")
              (lit "Title: " ++ QUOTE ++ ppt_title ++ QUOTE
               ++ lit ", Subtitle: " ++ QUOTE ++ lit "[Document summary]" ++ QUOTE)).
    rewrite parse_line_outline_line; [reflexivity|].
    constructor; try reflexivity.
    intros h. simpl in h. repeat (destruct h as [h|h]; [discriminate h|]). exact h.
  - rewrite split_join_single.
    + unfold required_format. reflexivity.
    + discriminate.
    + apply Forall_forall. intros l hin. apply in_map_iff in hin.
      destruct hin as [l0 [<- hin0]]. rewrite Forall_forall in hall.
      intros h. apply in_app_or in h. destruct h as [h|h]; [|exact (hall _ hin0 h)].
      simpl in h. repeat (destruct h as [h|h]; [discriminate h|]). exact h.
Qed.

End ParsingMore.

Lemma parse_of_joined_outlines_witness :
  parse_slide_structure (lit "Slide 1: [A] - x" ++ NL ++ lit "note" ++ NL ++ lit "Slide 2: [B] - y")
  = Ok ([lit "A"] ++ [lit "B"]).
Proof.
  apply (parse_of_joined_outlines (lit "Slide 1: [A] - x")
           (lit "note" ++ NL ++ lit "Slide 2: [B] - y")); reflexivity.
Defined.

Lemma passed_over_lines_do_not_matter_witness :
  parse_slide_structure
    (lines ([lit "Slide 1: [A] - x"] ++ lit "Slide two, no separator"
            :: [lit "Slide - notes"]))
  = parse_slide_structure (lines ([lit "Slide 1: [A] - x"] ++ [lit "Slide - notes"])).
Proof.
  apply (passed_over_lines_do_not_matter [lit "Slide 1: [A] - x"]
           [lit "Slide - notes"] (lit "Slide two, no separator")).
  - reflexivity.
  - intros h. simpl in h. repeat (destruct h as [h|h]; [discriminate h|]). exact h.
  - repeat constructor; intros h; simpl in h;
      repeat (destruct h as [h|h]; [discriminate h|]); exact h.
Defined.

Lemma parsed_titles_are_clean_witness :
  Forall (fun t => ~ In LF t
                   /\ contains (lit " - ") t = false
                   /\ contains (lit ": ") t = false
                   /\ strip_chars (lit "[]") t = t) SAMPLE_TITLES.
Proof. apply (parsed_titles_are_clean SAMPLE_OUTLINE SAMPLE_TITLES). reflexivity. Defined.

Lemma required_format_parses_witness :
  parse_slide_structure (lines (required_format (lit "Q3 Report"))) = Ok REQUIRED_TITLES
  /\ parse_slide_structure (lines (map (app INDENT) (required_format (lit "Q3 Report"))))
     = Ok [].
Proof.
  apply (required_format_parses (lit "Q3 Report")).
  intros h. simpl in h. repeat (destruct h as [h|h]; [discriminate h|]). exact h.
Defined.

(* ================================================================== *)
(** * Further properties: slide content and the outline request *)
(* ================================================================== *)

Lemma join_prefixed p sep ls :
  ls <> [] -> p ++ join (sep ++ p) ls = join sep (map (app p) ls).
Proof.
  induction ls as [|l ls IH]; [contradiction|]. intros _.
  destruct ls as [|l' ls]; [reflexivity|].
  change (join (sep ++ p) (l :: l' :: ls))
    with (l ++ (sep ++ p) ++ join (sep ++ p) (l' :: ls)).
  change (join sep (map (app p) (l :: l' :: ls)))
    with ((p ++ l) ++ sep ++ join sep (map (app p) (l' :: ls))).
  rewrite <- IH by discriminate. rewrite <- !app_assoc. reflexivity.
Qed.

(** X11. Post-processing is idempotent: applied to its own result it changes
    nothing. *)
Theorem ensure_bullets_idempotent (content : str) :
  ensure_bullets (ensure_bullets content) = ensure_bullets content.
Proof.
  pose proof (ensure_bullets_usable content) as h. unfold usable in h.
  apply andb_prop in h. destruct h as [h h3].
  apply andb_prop in h. destruct h as [_ h2].
  unfold ensure_bullets at 1. rewrite h2, h3. reflexivity.
Qed.

(** X12. A non-blank answer without any marker is re-wrapped line by line:
    the result has the same lines, in the same order, each with ['- '] in
    front. *)
Theorem rewrap_prefixes_every_line (content : str) :
  nonempty (strip content) = true ->
  has_marker content = false ->
  split NL (ensure_bullets content)
  = map (app (lit "- ")) (split NL content).
Proof.
  intros hs hm. unfold ensure_bullets. rewrite hs, hm. cbn [negb].
  unfold replace.
  pose proof (split_nonempty NL content ltac:(discriminate)) as hne.
  rewrite (join_prefixed (lit "- ") NL _ hne).
  unfold NL in *. apply split_join_single.
  - destruct (split [LF] content); [contradiction|discriminate].
  - pose proof (split_lines_no_LF content) as hall. unfold NL in hall.
    apply Forall_forall. intros l hin. apply in_map_iff in hin.
    destruct hin as [l0 [<- hin0]]. rewrite Forall_forall in hall.
    intros h. apply in_app_or in h. destruct h as [h|h]; [|exact (hall _ hin0 h)].
    simpl in h. repeat (destruct h as [h|h]; [discriminate h|]). exact h.
Qed.

Lemma rewrap_prefixes_every_line_witness :
  split NL (ensure_bullets (lines [lit "Revenue grew"; lit "Costs fell"]))
  = map (app (lit "- ")) (split NL (lines [lit "Revenue grew"; lit "Costs fell"])).
Proof.
  apply (rewrap_prefixes_every_line (lines [lit "Revenue grew"; lit "Costs fell"]));
    reflexivity.
Defined.

Section RequestsMore.

Variable W : Type.
Variable E : env W.

(** X13. [generate_slide_content] calls the service exactly once, with the
    prompt of the slide, and does nothing else to the outside, whatever the
    service answers: there is no retry. *)
Theorem generate_slide_content_calls_once
  (pdf_text slide_title : str) (s : state W) :
  log (snd (generate_slide_content E pdf_text slide_title s))
  = log s ++ [GenerateContent (content_prompt pdf_text slide_title)]
  /\ exists content,
       fst (generate_slide_content E pdf_text slide_title s) = Ok content.
Proof.
  destruct (generate_slide_content_spec W E pdf_text slide_title s)
    as [evs [e [-> [content [hc _]]]]].
  split; [exact e|exists content; exact hc].
Qed.

(** X14. [generate_slide_structure] calls the service exactly once and never
    raises: it returns the answer with no error when the service answers, and
    no outline with the message ['Structure generation failed: ...'], which
    is never empty, when the service raises. *)
Theorem generate_slide_structure_outcome
  (pdf_text ppt_title : str) (s : state W) :
  log (snd (generate_slide_structure E pdf_text ppt_title s))
  = log s ++ [GenerateContent (structure_prompt pdf_text ppt_title)]
  /\ match fst (service E (structure_prompt pdf_text ppt_title) (world s)) with
     | inl text =>
         fst (generate_slide_structure E pdf_text ppt_title s)
         = Ok (Some text, None)
     | inr e =>
         fst (generate_slide_structure E pdf_text ppt_title s)
         = Ok (None, Some (lit "Structure generation failed: " ++ exn_str e))
         /\ truthy (Some (lit "Structure generation failed: " ++ exn_str e)) = true
     end.
Proof.
  unfold generate_slide_structure.
  remember (structure_prompt pdf_text ppt_title) as prompt eqn:ep.
  cbv [try_except bind generate_content emit ask world log].
  destruct (service E prompt (let (world, _) := s in world)) as [[text|e] w];
    cbn [of_sum ret raise fst snd]; split; try reflexivity.
  split; reflexivity.
Qed.

Lemma bind_ext {A B} (m1 m2 : M W A) (k1 k2 : A -> M W B) (s : state W) :
  m1 s = m2 s -> (forall a s', k1 a s' = k2 a s') ->
  bind m1 k1 s = bind m2 k2 s.
Proof.
  intros hm hk. unfold bind. rewrite hm.
  destruct (m2 s) as [[a|e|] s']; [apply hk|reflexivity|reflexivity].
Qed.

Lemma try_except_ext {A} (m1 m2 : M W A) (h : exn -> M W A) (s : state W) :
  m1 s = m2 s -> try_except m1 h s = try_except m2 h s.
Proof. intros hm. unfold try_except. rewrite hm. reflexivity. Qed.

Lemma content_slides_same_chunk pdf1 pdf2 titles :
  slice_to PROCESSING_CHUNK_SIZE pdf1 = slice_to PROCESSING_CHUNK_SIZE pdf2 ->
  forall prs s,
    content_slides E pdf1 titles prs s = content_slides E pdf2 titles prs s.
Proof.
  intros h. induction titles as [|t rest IH]; intros prs s; cbn [content_slides].
  - reflexivity.
  - destruct (is_title_marker t); [apply IH|].
    apply bind_ext; [|intros; apply IH].
    unfold content_slide, generate_slide_content, content_prompt.
    rewrite h. reflexivity.
Qed.

(** X15. Only the first [PROCESSING_CHUNK_SIZE] characters of the document
    text count: two texts that agree on them give the same run of
    [generate_slide_structure] and of [create_presentation]. *)
Theorem text_beyond_the_chunk_is_ignored
  (pdf1 pdf2 ppt_title slide_structure : str) (s : state W) :
  slice_to PROCESSING_CHUNK_SIZE pdf1 = slice_to PROCESSING_CHUNK_SIZE pdf2 ->
  generate_slide_structure E pdf1 ppt_title s
  = generate_slide_structure E pdf2 ppt_title s
  /\ create_presentation E ppt_title slide_structure pdf1 s
     = create_presentation E ppt_title slide_structure pdf2 s.
Proof.
  intros h. split.
  - unfold generate_slide_structure, structure_prompt. rewrite h. reflexivity.
  - unfold create_presentation. apply try_except_ext.
    apply bind_ext; [|reflexivity].
    unfold assemble. apply bind_ext; [reflexivity|]. intros prs0 s0.
    apply bind_ext; [reflexivity|]. intros titles s1.
    apply bind_ext; [|reflexivity].
    apply content_slides_same_chunk. exact h.
Qed.

End RequestsMore.

Lemma text_beyond_the_chunk_is_ignored_witness :
  generate_slide_structure (calm_env (inl (lit "- a fact (Page 1)")))
    LONG_TEXT_A (lit "Q3 Report") start
  = generate_slide_structure (calm_env (inl (lit "- a fact (Page 1)")))
      LONG_TEXT_B (lit "Q3 Report") start
  /\ create_presentation (calm_env (inl (lit "- a fact (Page 1)")))
       (lit "Q3 Report") SAMPLE_OUTLINE LONG_TEXT_A start
     = create_presentation (calm_env (inl (lit "- a fact (Page 1)")))
         (lit "Q3 Report") SAMPLE_OUTLINE LONG_TEXT_B start.
Proof.
  apply (text_beyond_the_chunk_is_ignored unit
           (calm_env (inl (lit "- a fact (Page 1)")))
           LONG_TEXT_A LONG_TEXT_B (lit "Q3 Report") SAMPLE_OUTLINE start).
  vm_compute. reflexivity.
Defined.

(* ================================================================== *)
(** * Further properties: presentation assembly *)
(* ================================================================== *)

Lemma flat_map_drop c (s : str) :
  flat_map (fun x => if (x =? c)%N then [] else [x]) s
  = filter (fun x => negb (x =? c)%N) s.
Proof.
  induction s as [|x s IH]; cbn [flat_map filter]; [reflexivity|].
  rewrite IH. destruct (x =? c)%N; reflexivity.
Qed.

(** X16. The title shown on a content slide is the plan entry without its
    bracket characters: all of them are removed, nothing else is touched. *)
Theorem display_title_drops_brackets (slide_title : str) :
  display_title slide_title
  = filter (fun c => negb (mem (lit "[]") c)) slide_title
  /\ ~ In 91%N (display_title slide_title)
  /\ ~ In 93%N (display_title slide_title).
Proof.
  assert (e : display_title slide_title
              = filter (fun c => negb (mem (lit "[]") c)) slide_title).
  { unfold display_title.
    change (lit "]") with [93%N]. change (lit "[") with [91%N].
    rewrite !replace_single, !flat_map_drop.
    induction slide_title as [|x t IH]; cbn [filter]; [reflexivity|].
    change (mem (lit "[]") x) with ((x =? 91) || ((x =? 93) || false))%N.
    rewrite orb_false_r.
    destruct (N.eqb_spec x 91) as [->|n1]; cbn [negb orb filter].
    - exact IH.
    - destruct (x =? 93)%N; cbn [negb]; [exact IH|]. rewrite IH. reflexivity. }
  split; [exact e|]. rewrite e.
  split; intros h; apply filter_In in h; destruct h as [_ h]; discriminate h.
Qed.

(** A plan entry that is skipped holds the character ['[']. *)
Lemma title_marker_has_bracket t : is_title_marker t = true -> In 91%N t.
Proof.
  unfold is_title_marker, contains.
  destruct (partition (lit "[Title Slide]") t) as [[a r]|] eqn:e; [|discriminate].
  intros _. apply partition_Some in e. rewrite e.
  apply in_or_app; right. left. reflexivity.
Qed.

(** X17. Only entries that hold the character ['['] can be skipped: a plan
    whose entries are free of it is kept whole. *)
Theorem entries_without_bracket_are_kept (titles : list str) :
  Forall (fun t => ~ In 91%N t) titles -> kept titles = titles.
Proof.
  intros hall. unfold kept. induction hall as [|t ts ht _ IH]; cbn [filter].
  - reflexivity.
  - destruct (is_title_marker t) eqn:e.
    + exfalso. exact (ht (title_marker_has_bracket t e)).
    + cbn [negb]. rewrite IH. reflexivity.
Qed.

Lemma entries_without_bracket_are_kept_witness :
  kept SAMPLE_TITLES = SAMPLE_TITLES.
Proof.
  apply (entries_without_bracket_are_kept SAMPLE_TITLES).
  repeat constructor; intros h; simpl in h;
    repeat (destruct h as [h|h]; [discriminate h|]); exact h.
Defined.

Lemma service_calls_app a b :
  service_calls (a ++ b) = service_calls a + service_calls b.
Proof. unfold service_calls. rewrite filter_app, length_app. reflexivity. Qed.

Section AssemblyMore.

Variable W : Type.
Variable E : env W.

Lemma title_slide_shape ppt_title s :
  wp (title_slide E ppt_title)
     (fun r evs =>
        service_calls evs = 0 /\ content_slides_emitted evs = 0
        /\ saved evs = []
        /\ match r with
           | Ok prs =>
               exists now,
                 prs = {| slide_width := 13333; slide_height := 7500;
                          slides := [title_slide_made ppt_title now] |}
           | Raise _ => True
           | Halt => False
           end) s.
Proof.
  unfold title_slide. wp_run; cbv beta iota; repeat split.
  eexists. reflexivity.
Qed.

Lemma content_slide_shape pdf_text slide_title prs s :
  wp (content_slide E pdf_text slide_title prs)
     (fun r evs =>
        service_calls evs = 1 /\ content_slides_emitted evs <= 1
        /\ saved evs = []
        /\ match r with
           | Ok prs' =>
               exists sl, prs' = add_slide prs sl /\ content_slide_made sl
           | Raise _ => True
           | Halt => False
           end) s.
Proof.
  unfold content_slide. wp_step.
  apply (wp_mono _ _ _ _ s) with (2 := generate_slide_content_spec W E _ _ s).
  intros r evs [-> [content [-> hu]]].
  wp_run; cbv beta iota; (split; [reflexivity|]); (split; [cbn; lia|]);
    (split; [reflexivity|]); try exact I.
  eexists. split; [reflexivity|].
  destruct (display_title_drops_brackets slide_title) as (_ & h1 & h2).
  repeat split; assumption.
Qed.

Lemma content_slides_shape pdf_text titles : forall prs s,
  wp (content_slides E pdf_text titles prs)
     (fun r evs =>
        service_calls evs <= length (kept titles)
        /\ content_slides_emitted evs <= service_calls evs
        /\ saved evs = []
        /\ match r with
           | Ok prs' =>
               service_calls evs = length (kept titles)
               /\ exists new,
                    prs' = {| slide_width := slide_width prs;
                              slide_height := slide_height prs;
                              slides := slides prs ++ new |}
                    /\ Forall content_slide_made new
           | Raise _ => True
           | Halt => False
           end) s.
Proof.
  induction titles as [|slide_title rest IH]; intros prs s; cbn [content_slides].
  - wp_step. repeat split; try (cbn; lia).
    exists []. rewrite app_nil_r. split; [destruct prs; reflexivity|constructor].
  - unfold kept. cbn [filter].
    destruct (is_title_marker slide_title); cbn [negb]; [apply IH|].
    wp_step.
    apply (wp_mono _ _ _ _ s) with (2 := content_slide_shape _ _ _ s).
    intros [prs'| |] evs (h1 & h2 & h0 & h3).
    + destruct h3 as [sl [-> hsl]]. intros s'.
      apply (wp_mono _ _ _ _ s') with (2 := IH (add_slide prs sl) s').
      intros r evs2 (k1 & k2 & k0 & k3).
      rewrite service_calls_app, content_slides_emitted_app, saved_app, h1, h0, k0.
      fold (kept rest). cbn [length].
      repeat split; [lia|lia|].
      destruct r; try exact k3. destruct k3 as [k3 [new [-> hnew]]].
      split; [lia|].
      exists (sl :: new). cbn [add_slide slide_width slide_height slides].
      rewrite <- app_assoc. split; [reflexivity|constructor; assumption].
    + fold (kept rest). cbn [length]. repeat split; [lia|lia|exact h0].
    + contradiction.
Qed.

Lemma save_to_temp_shape prs s :
  wp (save_to_temp E prs)
     (fun r evs =>
        service_calls evs = 0 /\ content_slides_emitted evs = 0
        /\ match r with
           | Ok tmp => saved evs = [(tmp, prs)]
           | Raise _ => True
           | Halt => False
           end) s.
Proof. unfold save_to_temp. wp_run; cbv beta iota; repeat split. Qed.

Lemma create_presentation_shape ppt_title slide_structure pdf_text s :
  wp (create_presentation E ppt_title slide_structure pdf_text)
     (fun r evs =>
        service_calls evs <= N.to_nat MAX_SLIDES
        /\ content_slides_emitted evs <= service_calls evs
        /\ match r with
           | Ok (Some tmp) =>
               exists titles now new,
                 parse_slide_structure slide_structure = Ok titles
                 /\ service_calls evs
                    = length (kept (slice_to MAX_SLIDES titles))
                 /\ saved evs
                    = [(tmp, {| slide_width := 13333; slide_height := 7500;
                                slides := title_slide_made ppt_title now :: new |})]
                 /\ Forall content_slide_made new
           | Ok None => True
           | _ => False
           end) s.
Proof.
  unfold create_presentation. wp_step. wp_step. unfold assemble. wp_step.
  apply (wp_mono _ _ _ _ s) with (2 := title_slide_shape ppt_title s).
  intros [prs0| |] evs0 (h1 & h2 & h0 & h3); [| |contradiction].
  2:{ intros s1. wp_run.
      rewrite !service_calls_app, !content_slides_emitted_app, h1, h2.
      cbn. repeat split; unfold MAX_SLIDES in *; lia. }
  destruct h3 as [now ->]. intros s1. wp_step. wp_step.
  pose proof (parse_lines_cases (split NL slide_structure) []) as hp.
  fold (parse_slide_structure slide_structure) in hp.
  destruct (parse_slide_structure slide_structure) as [titles| |] eqn:ep;
    [| |contradiction].
  - intros s2. wp_step.
    apply (wp_mono _ _ _ _ s2)
      with (2 := content_slides_shape pdf_text (slice_to MAX_SLIDES titles) _ s2).
    pose proof (slice_to_length MAX_SLIDES titles) as hlen.
    pose proof (kept_length (slice_to MAX_SLIDES titles)) as hk.
    intros [prs| |] evs1 (k1 & k2 & k0 & k3); [| |contradiction].
    + destruct k3 as [k3 [new [-> hnew]]]. intros s3.
      apply (wp_mono _ _ _ _ s3) with (2 := save_to_temp_shape _ s3).
      intros [tmp|e|] evs2 (j1 & j2 & j3); [| |contradiction].
      * intros s4. wp_step.
        rewrite !service_calls_app, !content_slides_emitted_app, !saved_app.
        rewrite h1, h2, h0, k0, j1, j2, j3.
        cbn [service_calls content_slides_emitted filter length app saved flat_map].
        split; [unfold MAX_SLIDES in *; lia|]. split; [lia|].
        exists titles, now, new. repeat split; [lia|exact hnew].
      * intros s4. wp_run.
        rewrite !service_calls_app, !content_slides_emitted_app, h1, h2, j1, j2.
        cbn. repeat split; unfold MAX_SLIDES in *; lia.
    + intros s3. wp_run.
      rewrite !service_calls_app, !content_slides_emitted_app, h1, h2.
      cbn. repeat split; unfold MAX_SLIDES in *; lia.
  - intros s2. wp_run.
    rewrite !service_calls_app, !content_slides_emitted_app, h1, h2.
    cbn. repeat split; unfold MAX_SLIDES in *; lia.
Qed.

End AssemblyMore.

Section AssemblyShape.

Variable W : Type.
Variable E : env W.

(** X18. A presentation that [create_presentation] writes is widescreen,
    starts with the title slide (the given title, and ['Generated '] with the
    time text as subtitle), and every slide after it is a content slide made
    by the second loop: content layout, body that is not blank and holds a
    bullet marker, the fixed paragraph format, and a title without
    brackets. *)
Theorem written_presentation_is_well_formed
  (ppt_title slide_structure pdf_text : str) (s : state W) :
  exists evs,
    log (snd (create_presentation E ppt_title slide_structure pdf_text s))
    = log s ++ evs
    /\ match fst (create_presentation E ppt_title slide_structure pdf_text s) with
       | Ok (Some tmp) =>
           exists now new,
             saved evs
             = [(tmp, {| slide_width := 13333; slide_height := 7500;
                         slides := title_slide_made ppt_title now :: new |})]
             /\ Forall content_slide_made new
       | Ok None => saved evs = []
       | _ => False
       end.
Proof.
  destruct (create_presentation_shape W E ppt_title slide_structure pdf_text s)
    as [evs [e1 (_ & _ & h)]].
  destruct (create_presentation_spec W E ppt_title slide_structure pdf_text s)
    as [evs' [e1' [_ h']]].
  assert (evs' = evs)
    by (rewrite e1 in e1'; symmetry; exact (app_inv_head _ _ _ e1')).
  subst evs'.
  exists evs. split; [exact e1|].
  destruct (fst (create_presentation E ppt_title slide_structure pdf_text s))
    as [[tmp|]| |]; try contradiction.
  - destruct h as (titles & now & new & _ & _ & hs & hn). exists now, new. auto.
  - exact h'.
Qed.

(** X19. The service is called once per content slide and never more than
    [MAX_SLIDES] times in a run: every content slide added was preceded by
    its call, and when the presentation is written the number of calls and
    the number of content slides both equal the number of plan entries
    kept. *)
Theorem one_service_call_per_content_slide
  (ppt_title slide_structure pdf_text : str) (s : state W) :
  exists evs,
    log (snd (create_presentation E ppt_title slide_structure pdf_text s))
    = log s ++ evs
    /\ (N.of_nat (service_calls evs) <= MAX_SLIDES)%N
    /\ content_slides_emitted evs <= service_calls evs
    /\ match fst (create_presentation E ppt_title slide_structure pdf_text s) with
       | Ok (Some _) =>
           exists titles,
             parse_slide_structure slide_structure = Ok titles
             /\ service_calls evs = length (kept (slice_to MAX_SLIDES titles))
             /\ content_slides_emitted evs = service_calls evs
       | Ok None => True
       | _ => False
       end.
Proof.
  destruct (create_presentation_shape W E ppt_title slide_structure pdf_text s)
    as [evs [e1 (h1 & h2 & h)]].
  destruct (create_presentation_spec W E ppt_title slide_structure pdf_text s)
    as [evs' [e1' [_ h']]].
  assert (evs' = evs)
    by (rewrite e1 in e1'; symmetry; exact (app_inv_head _ _ _ e1')).
  subst evs'.
  exists evs. split; [exact e1|].
  split; [unfold MAX_SLIDES in *; lia|]. split; [exact h2|].
  destruct (fst (create_presentation E ppt_title slide_structure pdf_text s))
    as [[tmp|]| |]; try contradiction; [|exact I].
  destruct h as (titles & _ & _ & hp & hc & _).
  destruct h' as (titles' & _ & hp' & _ & hc' & _).
  rewrite hp in hp'. injection hp' as <-.
  exists titles. split; [exact hp|]. split; [exact hc|congruence].
Qed.

End AssemblyShape.

(* ================================================================== *)
(** * Further properties: the page *)
(* ================================================================== *)

(** X20. The file name offered for download is the title with every space
    replaced by an underscore, followed by ['.pptx']; it holds no space. *)
Theorem download_name_has_no_space (ppt_title : str) :
  download_name ppt_title
  = map (fun c => if (c =? 32)%N then 95%N else c) ppt_title ++ lit ".pptx"
  /\ ~ In 32%N (download_name ppt_title).
Proof.
  assert (e : download_name ppt_title
              = map (fun c => if (c =? 32)%N then 95%N else c) ppt_title
                ++ lit ".pptx").
  { unfold download_name. f_equal.
    change (lit " ") with [32%N]. change (lit "_") with [95%N].
    rewrite replace_single.
    induction ppt_title as [|x t IH]; cbn [flat_map map]; [reflexivity|].
    rewrite IH. destruct (x =? 32)%N; reflexivity. }
  split; [exact e|]. rewrite e. intros h.
  apply in_app_or in h. destruct h as [h|h].
  - apply in_map_iff in h. destruct h as [x [hx _]].
    destruct (N.eqb_spec x 32); [discriminate hx|congruence].
  - simpl in h. repeat (destruct h as [h|h]; [discriminate h|]). exact h.
Qed.

Lemma service_calls_extract (pdf_file : pdf_source) (W : Type) (s : state W) :
  log s = [] ->
  service_calls (log (snd (extract_text_from_pdf pdf_file s))) = 0.
Proof.
  intros h. rewrite extract_run. cbn [snd log]. rewrite h. cbn [app].
  unfold warning_of.
  destruct (snd (read_all (via_pdfplumber pdf_file) []));
    destruct (len (fst (read_all (via_pdfplumber pdf_file) [])) <? MIN_CONTENT_LENGTH)%N;
    try destruct (snd (read_all (via_pypdf2 pdf_file) _));
    reflexivity.
Qed.

Section PageClaims.

Variable W : Type.
Variable E : env W.
Variable U : ui W.

(** X21. In every world and for every session, [main] stops before the file
    uploader is shown: after the page header, [configure_gemini] reports its
    NameError and calls [st.stop()], which the handler in [main] does not
    catch; no widget is shown, no file is read, and the session is left as it
    was. *)
Theorem main_always_stops (a : app_state W) :
  main E U a
  = (Halt,
     {| app_world := app_world a;
        app_log :=
          app_log a
          ++ [ StSetPageConfig (lit "PDF to PowerPoint Pro") [CHART] (lit "centered");
               StTitle (CHART :: lit " PDF to PowerPoint Converter");
               StWrite (lit "Upload a PDF to generate a professional PowerPoint presentation");
               Core (StError (lit "Failed to configure Gemini: name 'GEMINI_API_KEY' is not defined"));
               Core StStop ];
        session := session a |}).
Proof.
  unfold main, app_bind, app_try, show, call. cbn.
  rewrite <- !app_assoc. reflexivity.
Qed.

(** X22. An uploaded file larger than [MAX_PDF_SIZE_MB] megabytes is refused
    by the part of [main] that follows the model set-up: the size error is
    shown, and nothing else happens (no extraction, no other widget, no
    change of the session). *)
Theorem oversized_file_is_refused
  (model : generative_model) (f : uploaded_file) (w : W) (a : app_state W) :
  file_uploader U (app_world a) = (Some f, w) ->
  (MAX_PDF_SIZE_MB * 1024 * 1024 < uf_size f)%N ->
  after_model E U model a
  = (Ok tt,
     {| app_world := w;
        app_log := app_log a
                   ++ [ StFileUploader (lit "Choose PDF file");
                        Core (StError (lit "File too large (max 50MB)")) ];
        session := session a |}).
Proof.
  intros hf hs. apply N.ltb_lt in hs.
  unfold after_model, app_bind, show, app_ask. cbn [app_world app_log session].
  rewrite hf. unfold with_pdf. rewrite hs. unfold show.
  cbn [app_world app_log session]. rewrite <- app_assoc. reflexivity.
Qed.

(** X23. When the extraction of an uploaded file of accepted size fails, the
    part of [main] that follows the model set-up shows the extraction error
    and ends there: the generation service is not called, no title or button
    is shown, and the session is left as it was. *)
Theorem failed_extraction_ends_the_run
  (model : generative_model) (f : uploaded_file) (w : W) (a : app_state W) :
  file_uploader U (app_world a) = (Some f, w) ->
  (uf_size f <= MAX_PDF_SIZE_MB * 1024 * 1024)%N ->
  fst (extract_text_from_pdf (uf_source f) {| world := w; log := [] |})
  = Ok (None, Some SCANNED_ERROR) ->
  exists evs,
    after_model E U model a
    = (Ok tt,
       {| app_world := w;
          app_log := app_log a
                     ++ [ StFileUploader (lit "Choose PDF file");
                          StSpinner (lit "Extracting text from PDF...") ]
                     ++ map Core evs
                     ++ [ Core (StError SCANNED_ERROR) ];
          session := session a |})
    /\ service_calls evs = 0.
Proof.
  intros hf hs he.
  exists (log (snd (extract_text_from_pdf (uf_source f) {| world := w; log := [] |}))).
  split; [|apply service_calls_extract; reflexivity].
  assert (hs' : (MAX_PDF_SIZE_MB * 1024 * 1024 <? uf_size f)%N = false)
    by (apply N.ltb_ge; exact hs).
  unfold after_model, app_bind, show, app_ask. cbn [app_world app_log session].
  rewrite hf. unfold with_pdf. rewrite hs'.
  unfold app_bind, show, call. cbn [app_world app_log session].
  assert (hw : world (snd (extract_text_from_pdf (uf_source f)
                             {| world := w; log := [] |})) = w)
    by (rewrite extract_run; reflexivity).
  destruct (extract_text_from_pdf (uf_source f) {| world := w; log := [] |})
    as [r c]. cbn [fst snd] in *. subst r. cbn [truthy].
  change (nonempty SCANNED_ERROR) with true. cbv iota beta.
  cbn [app_world app_log session]. rewrite hw, <- !app_assoc. reflexivity.
Qed.

End PageClaims.

Lemma oversized_file_is_refused_witness :
  after_model (calm_env (inl (lit "- a fact (Page 1)")))
    (sample_ui (Some {| uf_size := 60 * 1024 * 1024; uf_source := TEXT_PDF |})
       (fun _ => true) [])
    SAMPLE_MODEL app_start
  = (Ok tt,
     {| app_world := tt;
        app_log := app_log app_start
                   ++ [ StFileUploader (lit "Choose PDF file");
                        Core (StError (lit "File too large (max 50MB)")) ];
        session := session app_start |}).
Proof.
  apply (oversized_file_is_refused unit
           (calm_env (inl (lit "- a fact (Page 1)")))
           (sample_ui (Some {| uf_size := 60 * 1024 * 1024; uf_source := TEXT_PDF |})
              (fun _ => true) [])
           SAMPLE_MODEL
           {| uf_size := 60 * 1024 * 1024; uf_source := TEXT_PDF |} tt app_start).
  - reflexivity.
  - reflexivity.
Defined.

Lemma failed_extraction_ends_the_run_witness :
  exists evs,
    after_model (calm_env (inl (lit "- a fact (Page 1)")))
      (sample_ui (Some {| uf_size := 2048; uf_source := SCANNED_PDF |})
         (fun _ => true) [])
      SAMPLE_MODEL app_start
    = (Ok tt,
       {| app_world := tt;
          app_log := app_log app_start
                     ++ [ StFileUploader (lit "Choose PDF file");
                          StSpinner (lit "Extracting text from PDF...") ]
                     ++ map Core evs
                     ++ [ Core (StError SCANNED_ERROR) ];
          session := session app_start |})
    /\ service_calls evs = 0.
Proof.
  apply (failed_extraction_ends_the_run unit
           (calm_env (inl (lit "- a fact (Page 1)")))
           (sample_ui (Some {| uf_size := 2048; uf_source := SCANNED_PDF |})
              (fun _ => true) [])
           SAMPLE_MODEL
           {| uf_size := 2048; uf_source := SCANNED_PDF |} tt app_start).
  - reflexivity.
  - vm_compute. discriminate.
  - reflexivity.
Defined.

Section PageSteps.

Variable W : Type.
Variable E : env W.
Variable U : ui W.

(** X24. A request for the outline either replaces the outline kept in the
    session or leaves the session as it was: when the service answers, the
    answer is stored and no error is shown; when it raises, the error
    ['Structure generation failed: ...'] is shown and the outline stored
    before, if any, stays.  The step itself never fails. *)
Theorem analyze_document_updates_session
  (pdf_text ppt_title : str) (a : app_state W) :
  let prompt := structure_prompt pdf_text ppt_title in
  let shown := app_log a ++ [ StSpinner (lit "Creating slide structure...");
                              Core (GenerateContent prompt) ] in
  analyze_document E pdf_text ppt_title a
  = match service E prompt (app_world a) with
    | (inl text, w) =>
        (Ok tt,
         {| app_world := w; app_log := shown;
            session := {| ss_pdf_text := ss_pdf_text (session a);
                          ss_slide_structure := Some text |} |})
    | (inr e, w) =>
        (Ok tt,
         {| app_world := w;
            app_log := shown
                       ++ [ Core (StError (lit "Structure generation failed: "
                                           ++ exn_str e)) ];
            session := session a |})
    end.
Proof.
  cbv zeta. unfold analyze_document, generate_slide_structure.
  remember (structure_prompt pdf_text ppt_title) as prompt eqn:ep.
  cbv [app_bind show call get_session set_session try_except bind
       generate_content emit ask world log app_world app_log session].
  destruct a as [w0 l0 ss0].
  destruct (service E prompt w0) as [[text|e] w];
    cbn [of_sum ret raise fst snd truthy nonempty app map world log].
  - rewrite <- !app_assoc. reflexivity.
  - change (nonempty (lit "Structure generation failed: " ++ exn_str e)) with true.
    cbv iota beta. rewrite <- !app_assoc. reflexivity.
Qed.

(** X25. Once the presentation is written and the file is read, the
    download is offered with the bytes read, under the name made from the
    title, and the step ends normally whether or not the temporary file can
    be deleted afterwards. *)
Theorem download_is_offered_whatever_unlink_does
  (ppt_title edited_structure pdf_text path data : str)
  (c : state W) (w : W) (a : app_state W) :
  ss_pdf_text (session a) = Some pdf_text ->
  create_presentation E ppt_title edited_structure pdf_text
    {| world := app_world a; log := [] |}
  = (Ok (Some path), c) ->
  nonempty path = true ->
  read_bytes U path (world c) = (inl data, w) ->
  generate_powerpoint E U ppt_title edited_structure a
  = (Ok tt,
     {| app_world := snd (unlink_raises U path w);
        app_log :=
          app_log a
          ++ [ StSpinner (lit "Creating presentation...") ]
          ++ map Core (log c)
          ++ [ OpenRead path;
               StSuccess (CHECK_MARK :: lit " Presentation generated successfully!");
               StDownloadButton (lit "Download PowerPoint") data
                 (download_name ppt_title) PPTX_MIME;
               OsUnlink path ];
        session := session a |}).
Proof.
  intros hs hc hp hr.
  unfold generate_powerpoint.
  cbv [app_bind show call get_session app_ask app_world app_log session].
  destruct a as [w0 l0 ss0]. cbn [ss_pdf_text session app_world] in *.
  rewrite hs. cbv [app_bind show call app_ask app_world app_log session].
  rewrite hc. cbn [truthy]. rewrite hp.
  cbv [app_bind show call app_ask app_world app_log session app_ret].
  rewrite hr.
  destruct (unlink_raises U path w) as [o w2]. cbn [snd].
  rewrite <- !app_assoc. reflexivity.
Qed.

End PageSteps.

Lemma download_is_offered_whatever_unlink_does_witness :
  fst (generate_powerpoint (calm_env (inl (lit "- a fact (Page 1)")))
         (sample_ui None (fun _ => true) (lit "PK"))
         (lit "Q3 Report") SAMPLE_OUTLINE
         {| app_world := tt; app_log := [];
            session := {| ss_pdf_text := Some (lit "document text");
                          ss_slide_structure := Some SAMPLE_OUTLINE |} |})
  = Ok tt.
Proof.
  rewrite (download_is_offered_whatever_unlink_does unit
             (calm_env (inl (lit "- a fact (Page 1)")))
             (sample_ui None (fun _ => true) (lit "PK"))
             (lit "Q3 Report") SAMPLE_OUTLINE (lit "document text")
             (lit "/tmp/tmpq3.pptx") (lit "PK")
             (snd (create_presentation (calm_env (inl (lit "- a fact (Page 1)")))
                     (lit "Q3 Report") SAMPLE_OUTLINE (lit "document text")
                     {| world := tt; log := [] |}))
             tt).
  - reflexivity.
  - reflexivity.
  - vm_compute. reflexivity.
  - reflexivity.
  - reflexivity.
Defined.
